(** * S3 browser demo: the Express handlers of [src/index.ts] over a MinIO bucket

    The service is glue code: every handler is a short sequence of calls to
    the MinIO client and to the Express response object, wrapped in
    [try]/[catch].  The embedding keeps that shape.  A handler is a program
    in a state-and-exception monad [M] over a [world] that holds the bucket,
    the clock, the outcome the environment has scheduled for the next store
    calls, the log of calls issued so far and the response under
    construction. *)

From Stdlib Require Import ZArith NArith String Ascii List.
From stdpp Require Import base option list gmap strings pretty fin_maps.

Abbreviation byte := Byte.byte.

(** ** Values *)

(** What a [catch] clause can receive. *)
Inductive exn :=
  | S3Error (code : string)      (* raised by the MinIO client: store or network *)
  | TypeError (msg : string).    (* raised by the JavaScript runtime or by Node *)

(** A stored object: payload and the metadata map kept with it. *)
Record object := {
  body : list byte;
  metaData : list (string * string) }.

(** [BucketItem], the value a listing stream emits: [name] is optional in
    the client's type, [size] is a number. *)
Record BucketItem := {
  item_name : option string;
  item_size : N }.

(** [BucketItemStat], the part of it the handlers read. *)
Record BucketItemStat := {
  stat_size : N;
  stat_metaData : list (string * string) }.

(** The element type of [objectsList]: [{ name: string; size: number }]. *)
Record entry := {
  entry_name : string;
  entry_size : N }.

(** A Node readable stream, seen as the events it emits, in order.  No event
    follows ['error'] or ['end']; a list that ends before either is a stream
    that stays open. *)
Inductive event (A : Type) :=
  | EvData (a : A)
  | EvError (e : exn)
  | EvEnd.
Arguments EvData {A} a.
Arguments EvError {A} e.
Arguments EvEnd {A}.

Definition Readable (A : Type) : Type := list (event A).

(** [req.file] as multer's memory storage fills it. *)
Record File := {
  originalname : string;
  mimetype : string;
  buffer : list byte;
  size : N }.

(** ** The response object *)

Inductive view :=
  | IndexView (objects : list entry) (bucket_name : string)
  | ErrorView (message : string).

(** What has been written to the client. *)
Inductive sent :=
  | Nothing
  | Rendered (v : view)                     (* res.render(view, locals) *)
  | Text (s : string)                       (* res.send(text) *)
  | Redirected                              (* res.redirect(url) *)
  | Piped (chunks : list (list byte)) (ended : bool).   (* stream.pipe(res) *)

(** [headers] holds the headers the handler sets itself; those Express adds
    on its own when it sends are not recorded. *)
Record response := {
  statusCode : Z;
  headers : gmap string string;
  payload : sent }.

Definition fresh : response :=
  {| statusCode := 200; headers := ∅; payload := Nothing |}.

(** ** The world *)

(** The outcome the environment imposes on a store call.  [Reject e]: the
    call itself fails (it throws, or its promise rejects).  [Break n e]: the
    connection breaks after [n] units of the reply; a streamed reply emits
    ['error'] at that point, a reply that is not streamed fails as a whole. *)
Inductive fault :=
  | Reject (e : exn)
  | Break (n : nat) (e : exn).

(** What the process does to the outside, in the order it does it. *)
Inductive effect :=
  | BucketExists (b : string)
  | MakeBucket (b : string)
  | ListObjects (b pre : string) (recursive : bool)
  | PutObject (b k : string) (buf : list byte) (len : N) (meta : list (string * string))
  | RemoveObject (b k : string)
  | StatObject (b k : string)
  | GetObject (b k : string)
  | Listen (port : string + Z).

Record world := {
  now : Z;                                  (* what Date.now() returns *)
  bucket : option (gmap string object);     (* None: the bucket does not exist *)
  faults : list (option fault);             (* outcomes of the next store calls *)
  log : list effect;                        (* oldest first *)
  res : response }.

Definition with_bucket (b : option (gmap string object)) (w : world) : world :=
  {| now := now w; bucket := b; faults := faults w; log := log w; res := res w |}.

Definition with_res (r : response) (w : world) : world :=
  {| now := now w; bucket := bucket w; faults := faults w; log := log w; res := r |}.

Definition at_time (t : Z) (w : world) : world :=
  {| now := t; bucket := bucket w; faults := faults w; log := log w; res := res w |}.

(** Issuing a call: it is logged and takes the next scheduled outcome. *)
Definition issue (e : effect) (w : world) : world :=
  {| now := now w; bucket := bucket w; faults := tail (faults w);
     log := log w ++ [e]; res := res w |}.

Definition scheduled (w : world) : option fault :=
  match faults w with
  | [] => None
  | f :: _ => f
  end.

(** ** The monad *)

(** How a computation leaves: normally, by a thrown exception, or because
    [process.exit] ended the process. *)
Inductive result (A : Type) :=
  | Ret (a : A)
  | Threw (e : exn)
  | Exited (code : Z).
Arguments Ret {A} a.
Arguments Threw {A} e.
Arguments Exited {A} code.

Definition M (A : Type) : Type := world → result A * world.

Global Instance M_ret : MRet M := λ A a w, (Ret a, w).

Global Instance M_bind : MBind M := λ A B f m w,
  match m w with
  | (Ret a, w') => f a w'
  | (Threw e, w') => (Threw e, w')
  | (Exited c, w') => (Exited c, w')
  end.

Global Instance M_throw : MThrow exn M := λ A e w, (Threw e, w).

(** [try { body } catch (err) { handler err }]: only a thrown exception
    reaches the handler. *)
Definition try_catch {A} (body : M A) (handler : exn → M A) : M A := λ w,
  match body w with
  | (Threw e, w') => handler e w'
  | r => r
  end.

Definition process_exit {A} (code : Z) : M A := λ w, (Exited code, w).

Definition get_world : M world := λ w, (Ret w, w).
Definition modify (f : world → world) : M unit := λ w, (Ret tt, f w).

(** [console.log], [console.debug], [console.error]: output is not part of
    the model. *)
Definition console (msg : string) : M unit := mret tt.

Definition Date_now : M Z := λ w, (Ret (now w), w).

(** ** JavaScript and Node details the handlers rely on *)

(** [obj[key]] on a metadata object: [undefined] when the key is absent. *)
Fixpoint prop (key : string) (o : list (string * string)) : option string :=
  match o with
  | [] => None
  | (k, v) :: o' => if String.eqb key k then Some v else prop key o'
  end.

(** A string is falsy when it is empty, a number when it is zero;
    [undefined] is falsy. *)
Definition truthy_string (s : string) : bool :=
  match s with
  | EmptyString => false
  | String _ _ => true
  end.

Definition truthy_number (n : N) : bool := negb (n =? 0)%N.

Definition lowercase_ascii (c : ascii) : ascii :=
  let n := N_of_ascii c in
  if ((65 <=? n) && (n <=? 90))%N then ascii_of_N (n + 32) else c.

Fixpoint lowercase (s : string) : string :=
  match s with
  | EmptyString => EmptyString
  | String c s' => String (lowercase_ascii c) (lowercase s')
  end.

(** Node refuses a header value with a character outside tab, [\x20-\x7e]
    and [\x80-\xff]. *)
Definition valid_header_char (c : ascii) : bool :=
  let n := N_of_ascii c in
  ((n =? 9) || ((32 <=? n) && negb (n =? 127)))%N.

Fixpoint valid_header_value (s : string) : bool :=
  match s with
  | EmptyString => true
  | String c s' => valid_header_char c && valid_header_value s'
  end.

Definition dquote : string := String (ascii_of_N 34) EmptyString.

(** The template literal [`${t}-${originalname}`]; a millisecond count
    prints as a plain decimal. *)
Definition key_of (t : Z) (originalname : string) : string :=
  pretty t +:+ "-" +:+ originalname.

(** ** The MinIO client against the bucket *)

(** The client library and the store behind it are not part of the
    repository.  The handlers are run against this model of them: one
    bucket held in memory, object-store semantics for each call, and
    failures as the environment has scheduled them. *)

(** A call whose reply is not streamed. *)
Definition call (e : effect) : M unit := λ w,
  match scheduled w with
  | Some (Reject err) | Some (Break _ err) => (Threw err, issue e w)
  | None => (Ret tt, issue e w)
  end.

(** A call whose reply is a stream: a break shows in the stream, later. *)
Definition call_stream (e : effect) : M (option (nat * exn)) := λ w,
  match scheduled w with
  | Some (Reject err) => (Threw err, issue e w)
  | Some (Break n err) => (Ret (Some (n, err)), issue e w)
  | None => (Ret None, issue e w)
  end.

Definition the_bucket : M (gmap string object) :=
  w ← get_world;
  match bucket w with
  | Some objs => mret objs
  | None => mthrow (S3Error "NoSuchBucket")
  end.

Definition bucketExists (b : string) : M bool :=
  call (BucketExists b);;
  w ← get_world;
  mret (match bucket w with Some _ => true | None => false end).

Definition makeBucket (b : string) : M unit :=
  call (MakeBucket b);;
  w ← get_world;
  match bucket w with
  | Some _ => mthrow (S3Error "BucketAlreadyOwnedByYou")
  | None => modify (with_bucket (Some ∅))
  end.

Definition item_of (kv : string * object) : BucketItem :=
  {| item_name := Some kv.1; item_size := N.of_nat (length (body kv.2)) |}.

(** The keys under a prefix, each with the size of its payload.  The model
    has no delimiter grouping: it lists as [recursive = true] does. *)
Definition listing (pre : string) (objs : gmap string object) : list BucketItem :=
  item_of <$> filter (λ kv, String.prefix pre kv.1 = true) (map_to_list objs).

Definition listObjects (b pre : string) (recursive : bool) : M (Readable BucketItem) :=
  broken ← call_stream (ListObjects b pre recursive);
  w ← get_world;
  mret (match bucket w with
        | None => [EvError (S3Error "NoSuchBucket")]
        | Some objs =>
            match broken with
            | None => (EvData <$> listing pre objs) ++ [EvEnd]
            | Some (n, err) => (EvData <$> take n (listing pre objs)) ++ [EvError err]
            end
        end).

(** Metadata travels as HTTP headers and comes back with lower-case names. *)
Definition as_headers (meta : list (string * string)) : list (string * string) :=
  (λ kv, (lowercase kv.1, kv.2)) <$> meta.

(** For a [Buffer] payload the client takes the length from the buffer; the
    [len] argument is not used. *)
Definition putObject (b k : string) (buf : list byte) (len : N)
    (meta : list (string * string)) : M unit :=
  call (PutObject b k buf len meta);;
  objs ← the_bucket;
  modify (with_bucket (Some (<[k := {| body := buf; metaData := as_headers meta |}]> objs))).

Definition statObject (b k : string) : M BucketItemStat :=
  call (StatObject b k);;
  objs ← the_bucket;
  match objs !! k with
  | None => mthrow (S3Error "NotFound")
  | Some o => mret {| stat_size := N.of_nat (length (body o)); stat_metaData := metaData o |}
  end.

Definition chunks (bs : list byte) : Readable (list byte) :=
  match bs with
  | [] => []
  | _ => [EvData bs]
  end.

Definition getObject (b k : string) : M (Readable (list byte)) :=
  broken ← call_stream (GetObject b k);
  objs ← the_bucket;
  match objs !! k with
  | None => mthrow (S3Error "NoSuchKey")
  | Some o =>
      mret (match broken with
            | None => chunks (body o) ++ [EvEnd]
            | Some (n, err) => chunks (take n (body o)) ++ [EvError err]
            end)
  end.

(** Removing a key that is not there succeeds. *)
Definition removeObject (b k : string) : M unit :=
  call (RemoveObject b k);;
  objs ← the_bucket;
  modify (with_bucket (Some (delete k objs))).

(** ** The Express response *)

Definition res_status (code : Z) : M unit :=
  modify (λ w, with_res {| statusCode := code; headers := headers (res w);
                           payload := payload (res w) |} w).

Definition res_setHeader (name : string) (value : option string) : M unit :=
  match value with
  | None => mthrow (TypeError "ERR_HTTP_INVALID_HEADER_VALUE")
  | Some v =>
      if valid_header_value v
      then modify (λ w, with_res {| statusCode := statusCode (res w);
                                    headers := <[name := v]> (headers (res w));
                                    payload := payload (res w) |} w)
      else mthrow (TypeError "ERR_INVALID_CHAR")
  end.

Definition deliver (p : sent) : M unit :=
  modify (λ w, with_res {| statusCode := statusCode (res w); headers := headers (res w);
                           payload := p |} w).

Definition res_render (v : view) : M unit := deliver (Rendered v).

Definition res_send (s : string) : M unit := deliver (Text s).

Definition res_redirect (url : string) : M unit :=
  modify (λ w, with_res {| statusCode := 302;
                           headers := <["Location" := url]> (headers (res w));
                           payload := Redirected |} w).

Definition res_write (chunk : list byte) : M unit :=
  modify (λ w, with_res {| statusCode := statusCode (res w); headers := headers (res w);
                           payload := match payload (res w) with
                                      | Nothing => Piped [chunk] false
                                      | Piped cs false => Piped (cs ++ [chunk]) false
                                      | p => p
                                      end |} w).

Definition res_end : M unit :=
  modify (λ w, with_res {| statusCode := statusCode (res w); headers := headers (res w);
                           payload := match payload (res w) with
                                      | Nothing => Piped [] true
                                      | Piped cs _ => Piped cs true
                                      | p => p
                                      end |} w).

(** ** Streams and their listeners *)

(** The listeners a handler registers with [stream.on]; [S] is the state
    their closures share. *)
Record listeners (A S : Type) := {
  on_data : S → A → M S;
  on_error : exn → M unit;
  on_end : S → M unit }.
Arguments on_data {A S} _ _ _.
Arguments on_error {A S} _ _.
Arguments on_end {A S} _ _.

(** The stream emits its events to the listeners. *)
Fixpoint emit {A S} (events : Readable A) (ls : listeners A S) (s : S) : M unit :=
  match events with
  | [] => mret tt
  | EvData a :: rest => s' ← on_data ls s a; emit rest ls s'
  | EvError err :: _ => on_error ls err
  | EvEnd :: _ => on_end ls s
  end.

(** [src.pipe(res)]: every chunk is written, ['end'] ends the response.
    [pipe] registers no ['error'] listener, and an emitter throws an error
    nobody listens for. *)
Definition pipe (src : Readable (list byte)) : M unit :=
  emit src {| on_data := λ _ chunk, res_write chunk;
              on_error := λ err, mthrow err;
              on_end := λ _, res_end |} tt.

(** ** The service *)

Section Service.

(** The configuration read from [process.env] when the module loads. *)
Variable bucketName : string.     (* MINIO_BUCKET_NAME *)
Variable PORT : option string.    (* PORT *)

(** [process.env.PORT || 3000] *)
Definition port : string + Z :=
  match PORT with
  | Some (String c p) => inl (String c p)
  | _ => inr 3000%Z
  end.

Definition checkBucket : M unit :=
  try_catch
    (exists_ ← bucketExists bucketName;
     if negb exists_
     then makeBucket bucketName;; console "Bucket created successfully."
     else console "Bucket already exists.")
    (λ err, console "Error checking or creating bucket:";; process_exit 1).

Definition app_listen (p : string + Z) : M unit :=
  modify (λ w, {| now := now w; bucket := bucket w; faults := faults w;
                  log := log w ++ [Listen p]; res := res w |}).

(** [checkBucket().then(() => app.listen(port, ...))] *)
Definition main : M unit :=
  checkBucket;; app_listen port;; console "Server is running".

(** A handler's [try] block runs to its end, [await]s included, before any
    stream it has subscribed to emits: [stream.on] and [stream.pipe] only
    register listeners.  So each [try] block below returns, as a value, the
    emission that follows it, and the handler runs that emission after the
    [try]/[catch] has been left: what a listener throws is not caught by
    the handler's [catch]. *)

(** [stream.on('data', obj => obj.name && obj.size && objectsList.push(...))] *)
Definition onData (objectsList : list entry) (obj : BucketItem) : list entry :=
  match item_name obj with
  | Some name =>
      if truthy_string name && truthy_number (item_size obj)
      then objectsList ++ [{| entry_name := name; entry_size := item_size obj |}]
      else objectsList
  | None => objectsList
  end.

Definition index_listeners : listeners BucketItem (list entry) :=
  {| on_data := λ objectsList obj, mret (onData objectsList obj);
     on_error := λ err, mthrow err;
     on_end := λ objectsList, res_render (IndexView objectsList bucketName) |}.

(** [app.get('/')] *)
Definition get_index : M unit :=
  later ← try_catch
    (stream ← listObjects bucketName "" true;
     mret (emit stream index_listeners []))
    (λ error,
     res_status 500;; res_render (ErrorView "Failed to list objects.");;
     mret (mret tt));
  later.

(** [app.post('/upload', upload.single('file'))]; [file] is [req.file]. *)
Definition post_upload (file : option File) : M unit :=
  match file with
  | None => res_status 400;; res_render (ErrorView "No file uploaded.")
  | Some file =>
      t ← Date_now;
      let objectName := key_of t (originalname file) in
      let metaData := [("Content-Type", mimetype file)] in
      console "Metadata:";;
      console "File Size";;
      try_catch
        (putObject bucketName objectName (buffer file) (size file) metaData;;
         res_redirect "/")
        (λ error,
         console "Upload Error:";;
         res_status 500;; res_render (ErrorView "Failed to upload file."))
  end.

(** [app.post('/delete')]; [objectName] is [req.body.objectName]. *)
Definition post_delete (objectName : option string) : M unit :=
  match objectName with
  | None | Some EmptyString =>
      res_status 400;; res_render (ErrorView "Object name is missing.")
  | Some objectName =>
      try_catch
        (removeObject bucketName objectName;; res_redirect "/")
        (λ error, res_status 500;; res_render (ErrorView "Failed to delete object."))
  end.

Definition attachment (objectName : string) : string :=
  "attachment; filename=" +:+ dquote +:+ objectName +:+ dquote.

(** [app.get('/download/:objectName')] *)
Definition get_download (objectName : string) : M unit :=
  later ← try_catch
    (stat ← statObject bucketName objectName;
     res_setHeader "Content-Type" (prop "content-type" (stat_metaData stat));;
     res_setHeader "Content-Disposition" (Some (attachment objectName));;
     fileStream ← getObject bucketName objectName;
     mret (pipe fileStream))
    (λ error,
     console "Error downloading file:";;
     res_status 500;;
     res_render (ErrorView "Failed to download file or file not found.");;
     mret (mret tt));
  later.

(** [app.get('/preview/:objectName')].  Reading [startsWith] off an
    [undefined] content type throws a [TypeError]. *)
Definition get_preview (objectName : string) : M unit :=
  later ← try_catch
    (stat ← statObject bucketName objectName;
     match prop "content-type" (stat_metaData stat) with
     | None => mthrow (TypeError "Cannot read properties of undefined")
     | Some contentType =>
         if String.prefix "image/" contentType
         then
           fileStream ← getObject bucketName objectName;
           res_setHeader "Content-Type" (prop "content-type" (stat_metaData stat));;
           mret (pipe fileStream)
         else
           res_status 400;; res_send "File is not an image.";;
           mret (mret tt)
     end)
    (λ error,
     res_status 404;; res_send "Image not found.";;
     mret (mret tt));
  later.

(** A request is served on a response of its own. *)
Definition serve (handler : M unit) : M unit := λ w, handler (with_res fresh w).

End Service.

(** ** Observing a response *)

Definition respond (code : Z) (p : sent) : response :=
  {| statusCode := code; headers := ∅; payload := p |}.

(** The objects an index page shows. *)
Definition shown (r : response) : option (list entry) :=
  match payload r with
  | Rendered (IndexView objects _) => Some objects
  | _ => None
  end.

(** The bytes written to the client by a pipe, and whether it was ended. *)
Definition written (r : response) : list byte :=
  match payload r with
  | Piped cs _ => concat cs
  | _ => []
  end.

Definition finished (r : response) : bool :=
  match payload r with
  | Piped _ ended => ended
  | _ => false
  end.

(** The answer [res.redirect(url)] gives on a fresh response. *)
Definition redirect (url : string) : response :=
  {| statusCode := 302; headers := {[ "Location" := url ]}; payload := Redirected |}.

(** ** What a stream delivers *)

(** The items emitted before the stream errors, ends or falls silent. *)
Fixpoint emitted {A} (src : Readable A) : list A :=
  match src with
  | EvData a :: rest => a :: emitted rest
  | _ => []
  end.

Fixpoint ended {A} (src : Readable A) : bool :=
  match src with
  | EvData _ :: rest => ended rest
  | EvEnd :: _ => true
  | _ => false
  end.

Fixpoint failure {A} (src : Readable A) : option exn :=
  match src with
  | EvData _ :: rest => failure rest
  | EvError err :: _ => Some err
  | _ => None
  end.

(** What a response shows once the chunks [cs] have been piped into it. *)
Definition piped (cs : list (list byte)) (closed : bool) : sent :=
  match cs, closed with
  | [], false => Nothing
  | _, _ => Piped cs closed
  end.

(** The listing as the specification words it: the entries of the stream, in
    stream order, without those whose name or size is falsy. *)
Definition keep (obj : BucketItem) : option entry :=
  match item_name obj with
  | Some name =>
      if decide (name ≠ "" ∧ item_size obj ≠ 0%N)
      then Some {| entry_name := name; entry_size := item_size obj |}
      else None
  | None => None
  end.

Definition listed (items : list BucketItem) : list entry := omap keep items.

(** ** Sample inputs *)

Definition png : File :=
  {| originalname := "cat.png"; mimetype := "image/png";
     buffer := list_byte_of_string "meow"; size := 4 |}.

Definition png' : File :=
  {| originalname := "cat.png"; mimetype := "image/png";
     buffer := list_byte_of_string "purr"; size := 4 |}.

Definition blank : File :=
  {| originalname := "blank.txt"; mimetype := "text/plain"; buffer := []; size := 0 |}.

Definition cat : object :=
  {| body := list_byte_of_string "meow"; metaData := [("content-type", "image/png")] |}.

Definition notes : object :=
  {| body := list_byte_of_string "to do"; metaData := [("content-type", "text/plain")] |}.

(** An object written by another client, without a content type. *)
Definition bare : object :=
  {| body := list_byte_of_string "raw"; metaData := [] |}.

(** A key with a line feed in it. *)
Definition two_lines : string := "a" +:+ String (ascii_of_N 10) "b.png".

Definition odd : File :=
  {| originalname := two_lines; mimetype := "image/png";
     buffer := list_byte_of_string "meow"; size := 4 |}.

Definition gallery : world :=
  {| now := 1700000000000; bucket := Some ∅; faults := []; log := []; res := fresh |}.

Definition album : world :=
  {| now := 1700000000000;
     bucket := Some {[ "cat.png" := cat; "notes.txt" := notes; "bare.bin" := bare;
                       two_lines := cat ]};
     faults := []; log := []; res := fresh |}.

Definition with_faults (fs : list (option fault)) (w : world) : world :=
  {| now := now w; bucket := bucket w; faults := fs; log := log w; res := res w |}.

Definition reset : exn := S3Error "ECONNRESET".

(** A bucket that already holds the key an upload of cat.png would get. *)
Definition taken : world :=
  with_bucket (Some {[ "1700000000000-cat.png" := cat ]}) gallery.

(** No bucket at all. *)
Definition nowhere : world := with_bucket None gallery.

(** What the bucket holds after [file] has been put. *)
Definition stored (file : File) : object :=
  {| body := buffer file; metaData := [("content-type", mimetype file)] |}.

Definition put_of (b : string) (t : Z) (file : File) : effect :=
  PutObject b (key_of t (originalname file)) (buffer file) (size file)
    [("Content-Type", mimetype file)].

(** The object the bucket holds under a key, if any. *)
Definition object_at (k : string) (w : world) : option object :=
  bucket w ≫= (.!! k).

(** ** Decimal digits *)

Definition is_digit (c : ascii) : bool :=
  let n := N_of_ascii c in ((48 <=? n) && (n <=? 57))%N.

Fixpoint all_digits (s : string) : bool :=
  match s with
  | EmptyString => true
  | String c s' => is_digit c && all_digits s'
  end.

(** * Lemmas *)

(** ** Running the monad *)

Lemma res_with_res r w : res (with_res r w) = r.
Proof. done. Qed.

Lemma with_res_twice r r' w : with_res r (with_res r' w) = with_res r w.
Proof. done. Qed.

Ltac run :=
  unfold try_catch, modify, get_world, Date_now, console, process_exit,
    mbind, M_bind, mret, M_ret, mthrow, M_throw;
  cbn beta iota;
  rewrite ?res_with_res, ?with_res_twice;
  cbn [statusCode headers payload fresh].

Ltac handlers :=
  unfold serve, get_index, post_upload, post_delete, get_download, get_preview,
    main, checkBucket, app_listen, pipe,
    bucketExists, makeBucket, listObjects, putObject, statObject, getObject,
    removeObject, the_bucket, call, call_stream,
    res_status, res_setHeader, res_render, res_send, res_redirect, res_write,
    res_end, deliver.

(** ** Streams *)

Lemma emit_data {A S} (items : list A) (rest : Readable A) (ls : listeners A S)
    (f : S → A → S) (s : S) (w : world) :
  (∀ s a w', on_data ls s a w' = (Ret (f s a), w')) →
  emit ((EvData <$> items) ++ rest) ls s w = emit rest ls (foldl f s items) w.
Proof.
  intros Hf. revert s.
  induction items as [|a items IH]; intros s; [done|].
  cbn [fmap list_fmap app emit foldl]. run. by rewrite Hf, IH.
Qed.

Lemma onData_keep (objectsList : list entry) (obj : BucketItem) :
  onData objectsList obj = objectsList ++ listed [obj].
Proof.
  unfold onData, listed, keep; cbn [omap list_omap].
  destruct obj as [[[|c name]|] [|n]]; cbn; by rewrite ?app_nil_r.
Qed.

Lemma foldl_onData (items : list BucketItem) (objectsList : list entry) :
  foldl onData objectsList items = objectsList ++ listed items.
Proof.
  revert objectsList.
  induction items as [|obj items IH]; intros objectsList; cbn [foldl].
  - by rewrite app_nil_r.
  - rewrite IH, onData_keep, <-app_assoc. unfold listed. by rewrite <-omap_app.
Qed.

Lemma listObjects_frame b pre recursive r w :
  listObjects b pre recursive (with_res r w)
  = ((listObjects b pre recursive w).1, with_res r (issue (ListObjects b pre recursive) w)).
Proof.
  handlers; run.
  destruct w as [t bk fs lg r0]; destruct fs as [|[[e|n e]|] fs], bk as [objs|];
    reflexivity.
Qed.

(** ** Piping an object *)

Lemma pipe_from (src : Readable (list byte)) (cs : list (list byte)) (w : world) :
  payload (res w) = piped cs false →
  pipe src w
  = (from_option Threw (Ret tt) (failure src),
     with_res {| statusCode := statusCode (res w); headers := headers (res w);
                 payload := piped (cs ++ emitted src) (ended src) |} w).
Proof.
  unfold pipe. revert cs w.
  induction src as [|[chunk|err|] src IH]; intros cs w Hp; cbn [emit emitted ended failure].
  - rewrite app_nil_r, <-Hp. by destruct w as [? ? ? ? []].
  - cbn [on_data]. unfold res_write. run.
    erewrite (IH (cs ++ [chunk])).
    + cbn. by rewrite <-app_assoc.
    + cbn. rewrite Hp. by destruct cs.
  - cbn [on_error]. run. rewrite app_nil_r, <-Hp. by destruct w as [? ? ? ? []].
  - cbn [on_end]. unfold res_end. run. rewrite app_nil_r, Hp.
    by destruct cs.
Qed.

Lemma pipe_fresh (src : Readable (list byte)) (w : world) :
  payload (res w) = Nothing →
  pipe src w
  = (from_option Threw (Ret tt) (failure src),
     with_res {| statusCode := statusCode (res w); headers := headers (res w);
                 payload := piped (emitted src) (ended src) |} w).
Proof. intros Hp. by rewrite (pipe_from src []). Qed.

Lemma written_piped cs closed r :
  payload r = piped cs closed → written r = concat cs ∧ finished r = closed.
Proof. unfold written, finished. intros ->. by destruct cs, closed. Qed.

Lemma statObject_frame b k r w :
  statObject b k (with_res r w)
  = ((statObject b k w).1, with_res r (issue (StatObject b k) w)).
Proof.
  handlers; run.
  destruct w as [t bk fs lg r0]; destruct fs as [|[[e|n e]|] fs], bk as [objs|];
    try reflexivity; cbn; by destruct (objs !! k).
Qed.

Lemma getObject_frame b k r w :
  getObject b k (with_res r w)
  = ((getObject b k w).1, with_res r (issue (GetObject b k) w)).
Proof.
  handlers; run.
  destruct w as [t bk fs lg r0]; destruct fs as [|[[e|n e]|] fs], bk as [objs|];
    try reflexivity; cbn; by destruct (objs !! k).
Qed.

(** ** Object keys *)

Lemma append_cons a s t : String a s +:+ t = String a (s +:+ t).
Proof. done. Qed.

Lemma length_append s t :
  String.length (s +:+ t) = String.length s + String.length t.
Proof.
  induction s as [|a s IH]; [done|].
  rewrite append_cons. cbn [String.length]. by rewrite IH.
Qed.

Lemma append_inv_tail s1 s2 t : s1 +:+ t = s2 +:+ t → s1 = s2.
Proof.
  revert s2. induction s1 as [|a s1 IH]; intros [|a' s2] Heq; [done|..].
  - apply (f_equal String.length) in Heq.
    rewrite !length_append in Heq. cbn [String.length] in Heq. lia.
  - apply (f_equal String.length) in Heq.
    rewrite !length_append in Heq. cbn [String.length] in Heq. lia.
  - rewrite !append_cons in Heq. injection Heq as -> Heq. f_equal. by apply IH.
Qed.

Lemma key_of_nonempty t name : key_of t name ≠ "".
Proof.
  unfold key_of. intros Heq. apply (f_equal String.length) in Heq.
  rewrite !length_append in Heq. cbn [String.length] in Heq. lia.
Qed.

(** Two keys for one file name are equal only at the same millisecond. *)
Lemma key_of_inj t1 t2 name : key_of t1 name = key_of t2 name → t1 = t2.
Proof.
  unfold key_of. intros Heq%append_inv_tail. by apply (inj pretty).
Qed.

(** ** Runs against a store that answers *)

Lemma upload_stored b w file objs :
  bucket w = Some objs → scheduled w = None →
  serve (post_upload b (Some file)) w
  = (Ret tt,
     with_res (redirect "/")
       (with_bucket (Some (<[key_of (now w) (originalname file) := stored file]> objs))
          (issue (put_of b (now w) file) w))).
Proof.
  intros Hb Hs. handlers; run.
  destruct w as [t bk fs lg r]; cbn in *; subst bk.
  unfold scheduled in *; cbn in *. by rewrite Hs.
Qed.

Lemma upload_rejected b w file err :
  (scheduled w = Some (Reject err) ∨ ∃ n, scheduled w = Some (Break n err)) →
  serve (post_upload b (Some file)) w
  = (Ret tt,
     with_res (respond 500 (Rendered (ErrorView "Failed to upload file.")))
       (issue (put_of b (now w) file) w)).
Proof.
  intros Hs. handlers; run.
  destruct w as [t bk fs lg r]; unfold scheduled in *; cbn in *.
  by destruct Hs as [-> | [n ->]].
Qed.

Lemma filter_prefix_empty (l : list (string * object)) :
  filter (λ kv, String.prefix "" kv.1 = true) l = l.
Proof.
  induction l as [|[k o] l IH]; [done|].
  rewrite filter_cons_True; [by rewrite IH|]. by destruct k.
Qed.

Lemma listing_all objs : listing "" objs = item_of <$> map_to_list objs.
Proof. unfold listing. by rewrite filter_prefix_empty. Qed.

Lemma listing_insert objs k o :
  objs !! k = None → listing "" (<[k := o]> objs) ≡ₚ item_of (k, o) :: listing "" objs.
Proof.
  intros Hk. rewrite !listing_all, map_to_list_insert by done. by rewrite fmap_cons.
Qed.

Lemma index_ended b w items :
  (listObjects b "" true w).1 = Ret ((EvData <$> items) ++ [EvEnd]) →
  serve (get_index b) w
  = (Ret tt, with_res (respond 200 (Rendered (IndexView (listed items) b)))
               (issue (ListObjects b "" true) w)).
Proof.
  intros Hstream. unfold serve, get_index. run.
  rewrite listObjects_frame, Hstream. cbn [fst snd].
  rewrite (emit_data items [EvEnd] (index_listeners b) onData) by done.
  by rewrite foldl_onData.
Qed.

Lemma index_of_bucket b w objs :
  bucket w = Some objs → scheduled w = None →
  serve (get_index b) w
  = (Ret tt, with_res (respond 200 (Rendered (IndexView (listed (listing "" objs)) b)))
               (issue (ListObjects b "" true) w)).
Proof.
  intros Hb Hs. apply index_ended.
  handlers; run. destruct w as [t bk fs lg r]; cbn in *; subst bk.
  unfold scheduled in *; cbn in *. by rewrite Hs.
Qed.

Lemma elem_of_listed items e :
  e ∈ listed items ↔
    ∃ obj, obj ∈ items ∧ item_name obj = Some (entry_name e)
           ∧ item_size obj = entry_size e
           ∧ entry_name e ≠ "" ∧ entry_size e ≠ 0%N.
Proof.
  unfold listed. rewrite list_elem_of_omap. split.
  - intros (obj & Hobj & Hkeep). exists obj. unfold keep in Hkeep.
    destruct (item_name obj) as [name|]; [|done].
    case_decide as Hd; [|done]. by simplify_eq/=.
  - intros (obj & Hobj & Hname & Hsize & Hn & Hs). exists obj. split; [done|].
    unfold keep. rewrite Hname, Hsize.
    case_decide as Hd; [by destruct e | by destruct Hd].
Qed.

Lemma listed_names objs e :
  e ∈ listed (listing "" objs) → is_Some (objs !! entry_name e).
Proof.
  rewrite elem_of_listed, listing_all.
  intros (obj & ([k o] & -> & Hko)%list_elem_of_fmap & Hname & _).
  apply elem_of_map_to_list in Hko. cbn in Hname. by simplify_eq.
Qed.

Lemma emitted_chunks bs :
  concat (emitted (chunks bs ++ [EvEnd])) = bs
  ∧ ended (chunks bs ++ [EvEnd]) = true
  ∧ failure (chunks bs ++ [EvEnd]) = None.
Proof. destruct bs; cbn; by rewrite ?app_nil_r. Qed.

Lemma download_run b k w st contentType src :
  (statObject b k w).1 = Ret st →
  prop "content-type" (stat_metaData st) = Some contentType →
  valid_header_value contentType = true →
  valid_header_value (attachment k) = true →
  (getObject b k (issue (StatObject b k) w)).1 = Ret src →
  serve (get_download b k) w
  = (from_option Threw (Ret tt) (failure src),
     with_res {| statusCode := 200;
                 headers := {[ "Content-Disposition" := attachment k;
                               "Content-Type" := contentType ]};
                 payload := piped (emitted src) (ended src) |}
       (issue (GetObject b k) (issue (StatObject b k) w))).
Proof.
  intros Hstat Hct Hvalid Hvalid' Hget.
  unfold serve, get_download. run.
  rewrite statObject_frame, Hstat; cbn [fst snd]; rewrite Hct.
  unfold res_setHeader. rewrite Hvalid, Hvalid'. run.
  rewrite getObject_frame, Hget; cbn [fst snd].
  by rewrite pipe_fresh.
Qed.

Lemma download_stored b k w objs o contentType :
  bucket w = Some objs → faults w = [] → objs !! k = Some o →
  prop "content-type" (metaData o) = Some contentType →
  valid_header_value contentType = true →
  valid_header_value (attachment k) = true →
  (serve (get_download b k) w).1 = Ret tt
  ∧ statusCode (res (serve (get_download b k) w).2) = 200%Z
  ∧ headers (res (serve (get_download b k) w).2)
    = {[ "Content-Disposition" := attachment k; "Content-Type" := contentType ]}
  ∧ written (res (serve (get_download b k) w).2) = body o
  ∧ finished (res (serve (get_download b k) w).2) = true.
Proof.
  intros Hb Hf Hk Hct Hvalid Hvalid'.
  destruct (emitted_chunks (body o)) as (Hbytes & Hend & Hfail).
  rewrite (download_run b k w
             {| stat_size := N.of_nat (length (body o)); stat_metaData := metaData o |}
             contentType (chunks (body o) ++ [EvEnd])); try done.
  - rewrite Hfail. cbn [fst snd from_option]. rewrite res_with_res.
    match goal with
    | |- context [written ?r] =>
        destruct (written_piped _ _ r eq_refl) as [Hw Hfin]
    end.
    by rewrite Hw, Hfin, Hbytes, Hend.
  - handlers; run. destruct w as [t bk fs lg r]; cbn in *; subst. cbn. by rewrite Hk.
  - handlers; run. destruct w as [t bk fs lg r]; cbn in *; subst. cbn. by rewrite Hk.
Qed.

(** * Properties *)

(** ** Upload without a file *)

(** C7: POST /upload with no file part answers 400 with the error view and
    leaves the world as it was: the bucket is unchanged and no call to the
    store has been issued. *)
Theorem upload_without_file b w :
  serve (post_upload b None) w
  = (Ret tt, with_res (respond 400 (Rendered (ErrorView "No file uploaded."))) w)
  ∧ bucket (serve (post_upload b None) w).2 = bucket w
  ∧ log (serve (post_upload b None) w).2 = log w.
Proof. by split_and!. Qed.

(** ** Delete *)

(** C8: POST /delete without an object name, or with an empty one, answers
    400 and leaves bucket and log untouched.  With a name, exactly one call
    is issued, removeObject on that name; when it succeeds the answer is a
    redirect to /, and it does succeed on a key the bucket never held. *)
Theorem delete_responses b w :
  (∀ objectName, objectName = None ∨ objectName = Some "" →
     serve (post_delete b objectName) w
     = (Ret tt, with_res (respond 400 (Rendered (ErrorView "Object name is missing."))) w))
  ∧ (∀ k, k ≠ "" →
     log (serve (post_delete b (Some k)) w).2 = log w ++ [RemoveObject b k])
  ∧ (∀ k, k ≠ "" →
     (removeObject b k w).1 = Ret tt →
     serve (post_delete b (Some k)) w
     = (Ret tt, with_res (redirect "/") (removeObject b k w).2))
  ∧ (∀ k objs, k ≠ "" →
     bucket w = Some objs → scheduled w = None → objs !! k = None →
     serve (post_delete b (Some k)) w
     = (Ret tt, with_res (redirect "/") (issue (RemoveObject b k) w))).
Proof.
  split_and!.
  - by intros ? [-> | ->].
  - intros [|c k] Hk; [done|].
    handlers; run.
    destruct w as [t bk fs lg r]; destruct fs as [|[[e|n e]|] fs], bk as [objs|];
      reflexivity.
  - intros [|c k] Hk; [done|].
    handlers; run.
    destruct w as [t bk fs lg r]; destruct fs as [|[[e|n e]|] fs], bk as [objs|];
      done.
  - intros [|c k] objs Hk Hb Hs Hnone; [done|].
    handlers; run.
    destruct w as [t bk fs lg r]; simpl in *; subst bk.
    unfold scheduled in *; simpl in *. rewrite Hs. simpl.
    rewrite delete_id by done. reflexivity.
Qed.

(** ** The index page *)

(** C5: when the listing stream emits [items] and ends, the index page is
    rendered with status 200 and shows the items in stream order without
    those whose name or size is falsy; the listeners do so on any such
    stream, whatever its items.  An entry is shown exactly when it
    comes from an item with a non-empty name and a non-zero size, so no
    object of reported size 0 is shown. *)
Theorem index_lists_truthy_items b items :
  (∀ w, emit ((EvData <$> items) ++ [EvEnd]) (index_listeners b) [] w
        = (Ret tt, with_res {| statusCode := statusCode (res w);
                               headers := headers (res w);
                               payload := Rendered (IndexView (listed items) b) |} w))
  ∧ (∀ w, (listObjects b "" true w).1 = Ret ((EvData <$> items) ++ [EvEnd]) →
     serve (get_index b) w
     = (Ret tt, with_res (respond 200 (Rendered (IndexView (listed items) b)))
                  (issue (ListObjects b "" true) w)))
  ∧ listed items `sublist_of`
      ((λ obj, {| entry_name := default "" (item_name obj);
                  entry_size := item_size obj |}) <$> items)
  ∧ (∀ e, e ∈ listed items ↔
       ∃ obj, obj ∈ items ∧ item_name obj = Some (entry_name e)
              ∧ item_size obj = entry_size e
              ∧ entry_name e ≠ "" ∧ entry_size e ≠ 0%N)
  ∧ (∀ e, e ∈ listed items → entry_size e ≠ 0%N).
Proof.
  split_and!.
  - intros w. rewrite (emit_data items [EvEnd] (index_listeners b) onData) by done.
    by rewrite foldl_onData.
  - intros w. apply index_ended.
  - unfold listed. induction items as [|obj items IH]; [done|].
    cbn [omap list_omap fmap list_fmap]. unfold keep at 1.
    destruct (item_name obj) as [name|]; cbn.
    + case_decide; [by apply sublist_skip|by apply sublist_cons].
    + by apply sublist_cons.
  - intros e. apply elem_of_listed.
  - intros e He. by apply elem_of_listed in He as (obj & _ & _ & _ & _ & Hs).
Qed.

(** C2: a listing stream that emits 'error' after some items.  The error
    listener rethrows, the throw happens while the stream emits, after the
    handler's try block is over: the exception leaves the handler uncaught
    and the response is still untouched, with neither status 500 nor the
    error view. *)
Theorem index_stream_error_escapes b w items err rest :
  (listObjects b "" true w).1 = Ret ((EvData <$> items) ++ EvError err :: rest) →
  serve (get_index b) w
  = (Threw err, with_res fresh (issue (ListObjects b "" true) w)).
Proof.
  intros Hstream. unfold serve, get_index. run.
  rewrite listObjects_frame, Hstream. cbn [fst snd].
  by rewrite (emit_data items _ (index_listeners b) onData).
Qed.

(** A listing that fails before it returns a stream does reach the catch
    clause. *)
Lemma index_listing_rejected b w err :
  (listObjects b "" true w).1 = Threw err →
  serve (get_index b) w
  = (Ret tt, with_res (respond 500 (Rendered (ErrorView "Failed to list objects.")))
               (issue (ListObjects b "" true) w)).
Proof.
  intros Hthrow. unfold serve, get_index. run.
  by rewrite listObjects_frame, Hthrow.
Qed.

(** ** Preview *)

(** C10: when the stat succeeds and the metadata holds no content type, the
    preview answers 404 "Image not found." and not 400: reading startsWith
    throws, the catch clause answers.  No getObject call is issued. *)
Theorem preview_without_content_type b k w st :
  (statObject b k w).1 = Ret st →
  prop "content-type" (stat_metaData st) = None →
  serve (get_preview b k) w
  = (Ret tt, with_res (respond 404 (Text "Image not found.")) (issue (StatObject b k) w)).
Proof.
  intros Hstat Hct. unfold serve, get_preview. run.
  by rewrite statObject_frame, Hstat; cbn [fst snd]; rewrite Hct.
Qed.

(** C4, amended: a failed stat answers 404 "Image not found."; a stored
    content type that does not begin with image/ answers 400 "File is not an
    image."; an image whose getObject call fails answers 404 as well; an
    image whose getObject call returns a stream is answered with status 200,
    the stored content type as the only header, and the chunks of that
    stream in order. *)
Theorem preview_responses b k w :
  (∀ err, (statObject b k w).1 = Threw err →
     serve (get_preview b k) w
     = (Ret tt, with_res (respond 404 (Text "Image not found."))
                  (issue (StatObject b k) w)))
  ∧ (∀ st contentType,
       (statObject b k w).1 = Ret st →
       prop "content-type" (stat_metaData st) = Some contentType →
       String.prefix "image/" contentType = false →
       serve (get_preview b k) w
       = (Ret tt, with_res (respond 400 (Text "File is not an image."))
                    (issue (StatObject b k) w)))
  ∧ (∀ st contentType err,
       (statObject b k w).1 = Ret st →
       prop "content-type" (stat_metaData st) = Some contentType →
       String.prefix "image/" contentType = true →
       (getObject b k (issue (StatObject b k) w)).1 = Threw err →
       serve (get_preview b k) w
       = (Ret tt, with_res (respond 404 (Text "Image not found."))
                    (issue (GetObject b k) (issue (StatObject b k) w))))
  ∧ (∀ st contentType src,
       (statObject b k w).1 = Ret st →
       prop "content-type" (stat_metaData st) = Some contentType →
       String.prefix "image/" contentType = true →
       valid_header_value contentType = true →
       (getObject b k (issue (StatObject b k) w)).1 = Ret src →
       serve (get_preview b k) w
       = (from_option Threw (Ret tt) (failure src),
          with_res {| statusCode := 200;
                      headers := {[ "Content-Type" := contentType ]};
                      payload := piped (emitted src) (ended src) |}
            (issue (GetObject b k) (issue (StatObject b k) w)))).
Proof.
  split_and!.
  - intros err Hstat. unfold serve, get_preview. run.
    by rewrite statObject_frame, Hstat.
  - intros st ct Hstat Hct Himg. unfold serve, get_preview. run.
    by rewrite statObject_frame, Hstat; cbn [fst snd]; rewrite Hct, Himg.
  - intros st ct err Hstat Hct Himg Hget. unfold serve, get_preview. run.
    rewrite statObject_frame, Hstat; cbn [fst snd]; rewrite Hct, Himg.
    by rewrite getObject_frame, Hget.
  - intros st ct src Hstat Hct Himg Hvalid Hget. unfold serve, get_preview. run.
    rewrite statObject_frame, Hstat; cbn [fst snd]; rewrite Hct, Himg.
    rewrite getObject_frame, Hget; cbn [fst snd].
    unfold res_setHeader. rewrite Hvalid. run.
    by rewrite pipe_fresh.
Qed.

(** ** Download *)

(** C6, amended: when the stat succeeds with a content type, both header
    values are legal and getObject returns a stream, the download is
    answered with status 200, Content-Type the stored content type,
    Content-Disposition the attachment of that name, and the chunks of the
    stream, unmodified and in order; the bytes written are those the stream
    emitted. *)
Theorem download_streams b k w st contentType src :
  (statObject b k w).1 = Ret st →
  prop "content-type" (stat_metaData st) = Some contentType →
  valid_header_value contentType = true →
  valid_header_value (attachment k) = true →
  (getObject b k (issue (StatObject b k) w)).1 = Ret src →
  serve (get_download b k) w
  = (from_option Threw (Ret tt) (failure src),
     with_res {| statusCode := 200;
                 headers := {[ "Content-Disposition" := attachment k;
                               "Content-Type" := contentType ]};
                 payload := piped (emitted src) (ended src) |}
       (issue (GetObject b k) (issue (StatObject b k) w)))
  ∧ written (res (serve (get_download b k) w).2) = concat (emitted src)
  ∧ finished (res (serve (get_download b k) w).2) = ended src.
Proof.
  intros Hstat Hct Hvalid Hvalid' Hget.
  rewrite (download_run b k w st contentType src) by done.
  split; [done|]. by apply written_piped.
Qed.

(** ** Startup *)

(** C9: the process either exits with code 1 or comes to listen.  When it
    listens, that is the last thing it has done, after the existence check
    and, for an absent bucket, the creation, and the bucket is there: an
    existing bucket is checked and served, an absent one is checked,
    created and served.  When the check or the creation fails, the process
    exits with code 1 at that call and never listens. *)
Theorem startup_sequence b p w :
  ((main b p w).1 = Ret tt →
     is_Some (bucket (main b p w).2)
     ∧ (log (main b p w).2 = log w ++ [BucketExists b; Listen (port p)]
        ∨ log (main b p w).2
          = log w ++ [BucketExists b; MakeBucket b; Listen (port p)]))
  ∧ ((bucketExists b w).1 = Ret true →
       (main b p w).1 = Ret tt
       ∧ log (main b p w).2 = log w ++ [BucketExists b; Listen (port p)]
       ∧ bucket (main b p w).2 = bucket w)
  ∧ ((bucketExists b w).1 = Ret false →
       (makeBucket b (issue (BucketExists b) w)).1 = Ret tt →
       (main b p w).1 = Ret tt
       ∧ log (main b p w).2
         = log w ++ [BucketExists b; MakeBucket b; Listen (port p)]
       ∧ bucket (main b p w).2 = Some ∅)
  ∧ (∀ err, (bucketExists b w).1 = Threw err →
       main b p w = (Exited 1, issue (BucketExists b) w))
  ∧ (∀ err, (bucketExists b w).1 = Ret false →
       (makeBucket b (issue (BucketExists b) w)).1 = Threw err →
       main b p w = (Exited 1, issue (MakeBucket b) (issue (BucketExists b) w)))
  ∧ ((main b p w).1 = Ret tt ∨ (main b p w).1 = Exited 1)
  ∧ ((main b p w).1 = Exited 1 → ∀ l q, log (main b p w).2 = log w ++ l → Listen q ∉ l).
Proof.
  handlers; run.
  destruct w as [t [objs|] fs lg r].
  - destruct fs as [|[[e|n e]|] fs]; cbn; split_and!; try done; eauto.
    all: try (intros _; split_and!; rewrite <-?app_assoc; by eauto).
    all: intros _ l q Hl; apply app_inv_head in Hl as <-;
      cbn [app]; rewrite !elem_of_cons, elem_of_nil;
      intros Hin; repeat (destruct Hin as [?|Hin]; [done|]); done.
  - destruct fs as [|[[e|n e]|] [|[[e'|n' e']|] fs]]; cbn; split_and!; try done; eauto.
    all: try (intros _; split_and!; rewrite <-?app_assoc; by eauto).
    all: try (intros _ _; split_and!; rewrite <-?app_assoc; by eauto).
    all: rewrite <-?app_assoc;
      intros _ l q Hl; apply app_inv_head in Hl as <-;
      cbn [app]; rewrite !elem_of_cons, elem_of_nil;
      intros Hin; repeat (destruct Hin as [?|Hin]; [done|]); done.
Qed.

(** ** Upload, then list, then download *)

(** C1, amended: a file with at least one byte, uploaded under a key the
    bucket does not hold yet while the store answers every call, and whose
    content type and key are legal header values.  The upload redirects to
    /; the next index page shows what the page showed before plus exactly
    one entry, of that key and of the size of the content; the download of
    that key answers 200 with the declared content type and the bytes of
    the content. *)
Theorem upload_then_list_then_download b w file objs :
  bucket w = Some objs → faults w = [] →
  objs !! key_of (now w) (originalname file) = None →
  buffer file ≠ [] →
  valid_header_value (mimetype file) = true →
  valid_header_value (attachment (key_of (now w) (originalname file))) = true →
  let key := key_of (now w) (originalname file) in
  let w1 := (serve (post_upload b (Some file)) w).2 in
  let w2 := (serve (get_index b) w1).2 in
  let w3 := (serve (get_download b key) w2).2 in
  res w1 = redirect "/"
  ∧ (∃ before after,
       shown (res (serve (get_index b) w).2) = Some before
       ∧ shown (res w2) = Some after
       ∧ after ≡ₚ {| entry_name := key;
                     entry_size := N.of_nat (length (buffer file)) |} :: before
       ∧ key ∉ entry_name <$> before)
  ∧ statusCode (res w3) = 200%Z
  ∧ headers (res w3) !! "Content-Type" = Some (mimetype file)
  ∧ written (res w3) = buffer file
  ∧ finished (res w3) = true.
Proof.
  intros Hb Hf Hfree Hbytes Hvalid Hvalid' key w1 w2 w3.
  assert (Hs : scheduled w = None) by (unfold scheduled; by rewrite Hf).
  assert (Hw1 : w1 = with_res (redirect "/")
                  (with_bucket (Some (<[key := stored file]> objs))
                     (issue (put_of b (now w) file) w))).
  { unfold w1. by rewrite (upload_stored b w file objs). }
  assert (Hf1 : faults w1 = []) by (rewrite Hw1; cbn; by rewrite Hf).
  assert (Hs1 : scheduled w1 = None) by (unfold scheduled; by rewrite Hf1).
  assert (Hb1 : bucket w1 = Some (<[key := stored file]> objs)) by by rewrite Hw1.
  assert (Hw2 : w2 = with_res (respond 200 (Rendered (IndexView
                       (listed (listing "" (<[key := stored file]> objs))) b)))
                       (issue (ListObjects b "" true) w1)).
  { unfold w2. by rewrite (index_of_bucket b w1 _ Hb1 Hs1). }
  assert (Hf2 : faults w2 = []) by (rewrite Hw2; cbn; by rewrite Hf1).
  assert (Hb2 : bucket w2 = Some (<[key := stored file]> objs)) by by rewrite Hw2.
  destruct (download_stored b key w2 _ (stored file) (mimetype file) Hb2 Hf2)
    as (_ & Hstatus & Hheaders & Hwritten & Hfinished);
    [apply lookup_insert_eq|done..|].
  fold w3 in Hstatus, Hheaders, Hwritten, Hfinished.
  split_and!; try done.
  - by rewrite Hw1.
  - exists (listed (listing "" objs)),
           (listed (listing "" (<[key := stored file]> objs))).
    split_and!.
    + by rewrite (index_of_bucket b w objs).
    + by rewrite Hw2.
    + unfold listed. rewrite listing_insert by done. cbn [omap list_omap].
      unfold keep at 1. cbn [item_of item_name item_size fst snd stored body].
      case_decide as Hd; [done|]. destruct Hd. split; [apply key_of_nonempty|].
      destruct (buffer file); [done|]. cbn [length]. lia.
    + intros (e & Hname & He%listed_names)%list_elem_of_fmap.
      rewrite <-Hname in He. unfold key in He. rewrite Hfree in He. by destruct He.
  - rewrite Hheaders. by rewrite lookup_insert_ne, lookup_singleton_eq.
Qed.

(** ** Two uploads of one file name *)

(** C3, amended: an upload puts its object under the key made of the
    clock's milliseconds, a hyphen and the original file name, and changes
    no other key.  Two uploads of one file name at different milliseconds
    get different keys; afterwards the bucket holds both objects, and each
    key downloads its own content. *)
Theorem uploads_of_one_name b w f1 f2 t1 t2 objs :
  bucket w = Some objs → faults w = [] →
  originalname f1 = originalname f2 → t1 ≠ t2 →
  let k1 := key_of t1 (originalname f1) in
  let k2 := key_of t2 (originalname f2) in
  let w1 := (serve (post_upload b (Some f1)) (at_time t1 w)).2 in
  let w2 := (serve (post_upload b (Some f2)) (at_time t2 w1)).2 in
  log w2 = log w ++ [put_of b t1 f1; put_of b t2 f2]
  ∧ k1 ≠ k2
  ∧ (∃ objs1 objs2,
       bucket w1 = Some objs1 ∧ bucket w2 = Some objs2
       ∧ objs1 !! k1 = Some (stored f1)
       ∧ (∀ k, k ≠ k1 → objs1 !! k = objs !! k)
       ∧ objs2 !! k1 = Some (stored f1)
       ∧ objs2 !! k2 = Some (stored f2)
       ∧ (∀ k, k ≠ k2 → objs2 !! k = objs1 !! k))
  ∧ (valid_header_value (mimetype f1) = true →
     valid_header_value (attachment k1) = true →
     statusCode (res (serve (get_download b k1) w2).2) = 200%Z
     ∧ written (res (serve (get_download b k1) w2).2) = buffer f1)
  ∧ (valid_header_value (mimetype f2) = true →
     valid_header_value (attachment k2) = true →
     statusCode (res (serve (get_download b k2) w2).2) = 200%Z
     ∧ written (res (serve (get_download b k2) w2).2) = buffer f2).
Proof.
  intros Hb Hf Hname Ht k1 k2 w1 w2.
  assert (Hk : k1 ≠ k2).
  { unfold k1, k2. rewrite Hname. by intros ?%key_of_inj. }
  assert (Hw1 : w1 = with_res (redirect "/")
                  (with_bucket (Some (<[k1 := stored f1]> objs))
                     (issue (put_of b t1 f1) (at_time t1 w)))).
  { unfold w1. rewrite (upload_stored b _ f1 objs); [done..|].
    unfold scheduled. cbn. by rewrite Hf. }
  assert (Hw2 : w2 = with_res (redirect "/")
                  (with_bucket (Some (<[k2 := stored f2]> (<[k1 := stored f1]> objs)))
                     (issue (put_of b t2 f2) (at_time t2 w1)))).
  { unfold w2. rewrite (upload_stored b _ f2 (<[k1 := stored f1]> objs)); [done| |].
    - by rewrite Hw1.
    - rewrite Hw1. unfold scheduled. cbn. by rewrite Hf. }
  assert (Hb2 : bucket w2 = Some (<[k2 := stored f2]> (<[k1 := stored f1]> objs)))
    by by rewrite Hw2.
  assert (Hf2 : faults w2 = []) by (rewrite Hw2, Hw1; cbn; by rewrite Hf).
  split_and!; [| done | | |].
  - rewrite Hw2, Hw1. cbn. by rewrite <-app_assoc.
  - exists (<[k1 := stored f1]> objs), (<[k2 := stored f2]> (<[k1 := stored f1]> objs)).
    split_and!; [by rewrite Hw1 | done | apply lookup_insert_eq | | | apply lookup_insert_eq |].
    + intros k ?. by apply lookup_insert_ne.
    + rewrite lookup_insert_ne by done. apply lookup_insert_eq.
    + intros k ?. by apply lookup_insert_ne.
  - intros Hv Hv'.
    destruct (download_stored b k1 w2 _ (stored f1) (mimetype f1) Hb2 Hf2)
      as (_ & ? & _ & ? & _); [|done..].
    rewrite lookup_insert_ne by done. apply lookup_insert_eq.
  - intros Hv Hv'.
    destruct (download_stored b k2 w2 _ (stored f2) (mimetype f2) Hb2 Hf2)
      as (_ & ? & _ & ? & _); [|done..].
    apply lookup_insert_eq.
Qed.

(** * Further properties *)

(** ** Keys determine their upload *)

Lemma pretty_N_char_digit x : is_digit (pretty_N_char x) = true.
Proof. unfold pretty_N_char. by repeat case_match. Qed.

Lemma pretty_N_go_digits x s :
  all_digits s = true → all_digits (pretty_N_go x s) = true.
Proof.
  revert s. induction (N.lt_wf_0 x) as [x _ IH]; intros s Hs.
  destruct (decide (x = 0%N)) as [->|Hx]; [by rewrite pretty_N_go_0|].
  rewrite pretty_N_go_step by lia.
  apply IH; [apply N.div_lt; lia|]. cbn [all_digits].
  by rewrite pretty_N_char_digit, Hs.
Qed.

Lemma pretty_N_go_nonempty x s : s ≠ "" → pretty_N_go x s ≠ "".
Proof.
  revert s. induction (N.lt_wf_0 x) as [x _ IH]; intros s Hs.
  destruct (decide (x = 0%N)) as [->|Hx]; [by rewrite pretty_N_go_0|].
  rewrite pretty_N_go_step by lia. apply IH; [apply N.div_lt; lia|done].
Qed.

Lemma pretty_N_digits (n : N) : all_digits (pretty n) = true ∧ pretty n ≠ "".
Proof.
  unfold pretty, pretty_N. case_decide as Hn; [done|]. split.
  - by apply pretty_N_go_digits.
  - rewrite pretty_N_go_step by lia. by apply pretty_N_go_nonempty.
Qed.

(** A run of digits before a hyphen is read back from any string that
    starts with it. *)
Lemma digits_hyphen_inj d1 d2 n1 n2 :
  all_digits d1 = true → all_digits d2 = true →
  d1 +:+ "-" +:+ n1 = d2 +:+ "-" +:+ n2 → d1 = d2 ∧ n1 = n2.
Proof.
  revert d2. induction d1 as [|c d1 IH]; intros [|c' d2] H1 H2 Heq.
  - split; [done|]. by injection Heq.
  - rewrite append_cons in Heq. injection Heq as <- _.
    cbn in H2. by apply andb_prop in H2 as [? _].
  - rewrite append_cons in Heq. injection Heq as -> _.
    cbn in H1. by apply andb_prop in H1 as [? _].
  - rewrite !append_cons in Heq. injection Heq as -> Heq.
    cbn [all_digits] in H1, H2.
    apply andb_prop in H1 as [_ H1]. apply andb_prop in H2 as [_ H2].
    destruct (IH d2 H1 H2 Heq) as [-> ->]. done.
Qed.

Lemma pretty_Z_shape (t : Z) :
  (all_digits (pretty t) = true ∧ pretty t ≠ "")
  ∨ (∃ d, pretty t = String "-" d ∧ all_digits d = true).
Proof.
  destruct t as [|p|p]; unfold pretty, pretty_Z.
  - by left.
  - left. apply (pretty_N_digits (Npos p)).
  - right. exists (pretty (Npos p)). split; [done|]. apply pretty_N_digits.
Qed.

Lemma key_of_pair_inj t1 t2 name1 name2 :
  key_of t1 name1 = key_of t2 name2 → t1 = t2 ∧ name1 = name2.
Proof.
  unfold key_of. intros Heq.
  destruct (pretty_Z_shape t1) as [[H1 Hne1]|(d1 & Hd1 & H1)],
           (pretty_Z_shape t2) as [[H2 Hne2]|(d2 & Hd2 & H2)].
  - destruct (digits_hyphen_inj _ _ _ _ H1 H2 Heq) as [Ht ->].
    split; [by apply (inj pretty)|done].
  - rewrite Hd2 in Heq. destruct (pretty t1) as [|c d1]; [done|].
    rewrite !append_cons in Heq. injection Heq as -> _.
    cbn in H1. by apply andb_prop in H1 as [? _].
  - rewrite Hd1 in Heq. destruct (pretty t2) as [|c d2]; [done|].
    rewrite !append_cons in Heq. injection Heq as <- _.
    cbn in H2. by apply andb_prop in H2 as [? _].
  - assert (Ht : pretty t1 = pretty t2).
    { rewrite Hd1, Hd2 in *. rewrite !append_cons in Heq. injection Heq as Heq.
      by destruct (digits_hyphen_inj _ _ _ _ H1 H2 Heq) as [-> _]. }
    split; [by apply (inj pretty)|].
    rewrite Ht in Heq. by apply (inj (String.append _)), (inj (String.append _)) in Heq.
Qed.

(** ** Failures of the store *)

Lemma scheduled_nil w : faults w = [] → scheduled w = None.
Proof. unfold scheduled. by intros ->. Qed.

(** X1: when the putObject call of an upload fails, the answer is the error
    view with status 500 and the bucket is as it was; the put is the only
    call issued. *)
Theorem upload_store_failure b w file err :
  (putObject b (key_of (now w) (originalname file)) (buffer file) (size file)
     [("Content-Type", mimetype file)] w).1 = Threw err →
  serve (post_upload b (Some file)) w
  = (Ret tt,
     with_res (respond 500 (Rendered (ErrorView "Failed to upload file.")))
       (issue (put_of b (now w) file) w))
  ∧ bucket (serve (post_upload b (Some file)) w).2 = bucket w.
Proof.
  handlers; run.
  destruct w as [t [objs|] [|[[e|n e]|] fs] lg r]; cbn; by intros [=].
Qed.

(** X2: an upload with a file never throws and issues exactly one call, the
    putObject of the buffer under the key of the current millisecond and
    the file name, with the declared size and the MIME type as Content-Type
    metadata.  It answers with the redirect to / when that call succeeds
    and with the error view and status 500 when it fails, and with nothing
    else. *)
Theorem upload_outcomes b w file :
  (serve (post_upload b (Some file)) w).1 = Ret tt
  ∧ log (serve (post_upload b (Some file)) w).2 = log w ++ [put_of b (now w) file]
  ∧ (((putObject b (key_of (now w) (originalname file)) (buffer file) (size file)
         [("Content-Type", mimetype file)] w).1 = Ret tt
      ∧ res (serve (post_upload b (Some file)) w).2 = redirect "/")
     ∨ ((∃ err, (putObject b (key_of (now w) (originalname file)) (buffer file)
                   (size file) [("Content-Type", mimetype file)] w).1 = Threw err)
        ∧ res (serve (post_upload b (Some file)) w).2
          = respond 500 (Rendered (ErrorView "Failed to upload file.")))).
Proof.
  handlers; run.
  destruct w as [t [objs|] [|[[e|n e]|] fs] lg r]; cbn; split_and!; eauto.
Qed.

(** X3: when the removeObject call of a delete fails, the answer is the
    error view with status 500 and the bucket is as it was. *)
Theorem delete_store_failure b w k err :
  k ≠ "" →
  (removeObject b k w).1 = Threw err →
  serve (post_delete b (Some k)) w
  = (Ret tt,
     with_res (respond 500 (Rendered (ErrorView "Failed to delete object.")))
       (issue (RemoveObject b k) w))
  ∧ bucket (serve (post_delete b (Some k)) w).2 = bucket w.
Proof.
  destruct k as [|c k]; [done|]. intros _.
  handlers; run.
  destruct w as [t [objs|] [|[[e|n e]|] fs] lg r]; cbn; by intros [=].
Qed.

Lemma download_stat_failed b k w err :
  (statObject b k w).1 = Threw err →
  serve (get_download b k) w
  = (Ret tt,
     with_res (respond 500 (Rendered (ErrorView "Failed to download file or file not found.")))
       (issue (StatObject b k) w)).
Proof.
  intros Hstat. unfold serve, get_download. run.
  by rewrite statObject_frame, Hstat.
Qed.

Lemma preview_stat_failed b k w err :
  (statObject b k w).1 = Threw err →
  serve (get_preview b k) w
  = (Ret tt, with_res (respond 404 (Text "Image not found.")) (issue (StatObject b k) w)).
Proof.
  intros Hstat. unfold serve, get_preview. run.
  by rewrite statObject_frame, Hstat.
Qed.

(** X7: when the stat of a download fails, for a missing object as for any
    other reason, the answer is the error view with status 500 and no
    header; getObject is not called. *)
Theorem download_stat_failure b k w err :
  (statObject b k w).1 = Threw err →
  res (serve (get_download b k) w).2
  = respond 500 (Rendered (ErrorView "Failed to download file or file not found."))
  ∧ log (serve (get_download b k) w).2 = log w ++ [StatObject b k]
  ∧ (∀ objs, bucket w = Some objs → scheduled w = None → objs !! k = None →
       (statObject b k w).1 = Threw (S3Error "NotFound")).
Proof.
  intros Hstat. rewrite (download_stat_failed b k w err Hstat).
  split_and!; [done..|].
  intros objs Hb Hs Hk. handlers; run.
  destruct w as [t bk fs lg r]; unfold scheduled in *; cbn in *; subst bk.
  rewrite Hs. cbn. by rewrite Hk.
Qed.

(** X8: when the stat of a download succeeds and the getObject call fails,
    the answer is the error view with status 500, and it still carries the
    attachment disposition that was set before the call. *)
Theorem download_read_failure_keeps_disposition b k w st contentType err :
  (statObject b k w).1 = Ret st →
  prop "content-type" (stat_metaData st) = Some contentType →
  valid_header_value contentType = true →
  valid_header_value (attachment k) = true →
  (getObject b k (issue (StatObject b k) w)).1 = Threw err →
  (serve (get_download b k) w).1 = Ret tt
  ∧ statusCode (res (serve (get_download b k) w).2) = 500%Z
  ∧ payload (res (serve (get_download b k) w).2)
    = Rendered (ErrorView "Failed to download file or file not found.")
  ∧ headers (res (serve (get_download b k) w).2) !! "Content-Disposition"
    = Some (attachment k)
  ∧ log (serve (get_download b k) w).2 = log w ++ [StatObject b k; GetObject b k].
Proof.
  intros Hstat Hct Hvalid Hvalid' Hget.
  unfold serve, get_download. run.
  rewrite statObject_frame, Hstat; cbn [fst snd]; rewrite Hct.
  unfold res_setHeader. rewrite Hvalid, Hvalid'. run.
  rewrite getObject_frame, Hget; cbn [fst snd].
  unfold res_status, res_render, deliver. run. cbn.
  split_and!; try done. by rewrite <-app_assoc.
Qed.

(** ** Deleting *)

Lemma delete_run b w k objs :
  k ≠ "" → bucket w = Some objs → scheduled w = None →
  serve (post_delete b (Some k)) w
  = (Ret tt,
     with_res (redirect "/")
       (with_bucket (Some (delete k objs)) (issue (RemoveObject b k) w))).
Proof.
  destruct k as [|c k]; [done|]. intros _ Hb Hs. handlers; run.
  destruct w as [t bk fs lg r]; unfold scheduled in *; cbn in *; subst bk.
  by rewrite Hs.
Qed.

Lemma filter_all {A} (P : A → Prop) `{∀ x, Decision (P x)} (l : list A) :
  Forall P l → filter P l = l.
Proof.
  induction 1 as [|x l Hx _ IH]; [done|]. by rewrite filter_cons_True, IH.
Qed.

Lemma listed_cons obj items : listed (obj :: items) = listed [obj] ++ listed items.
Proof. unfold listed. cbn [omap list_omap]. by destruct (keep obj). Qed.

Lemma filter_listed_one k o :
  filter (λ e, entry_name e ≠ k) (listed [item_of (k, o)]) = [].
Proof.
  unfold listed, keep. cbn. case_decide; [|done].
  by rewrite filter_cons_False by (cbn; intros Hk; by apply Hk).
Qed.

Lemma listed_after_delete objs k :
  listed (listing "" (delete k objs))
  ≡ₚ filter (λ e, entry_name e ≠ k) (listed (listing "" objs))
  ∧ k ∉ entry_name <$> listed (listing "" (delete k objs)).
Proof.
  assert (Hnames : Forall (λ e, entry_name e ≠ k) (listed (listing "" (delete k objs)))).
  { apply Forall_forall. intros e He%listed_names Hk.
    rewrite Hk, lookup_delete_eq in He. by destruct He. }
  split.
  - destruct (objs !! k) as [o|] eqn:Hk.
    + assert (Hperm : listing "" objs ≡ₚ item_of (k, o) :: listing "" (delete k objs)).
      { rewrite !listing_all, <-fmap_cons. apply fmap_Permutation.
        symmetry. by apply map_to_list_delete. }
      assert (Hlisted : listed (listing "" objs)
                        ≡ₚ listed (item_of (k, o) :: listing "" (delete k objs))).
      { unfold listed. by rewrite Hperm. }
      rewrite Hlisted, listed_cons, filter_app, filter_listed_one.
      by rewrite (filter_all _ _ Hnames).
    + rewrite delete_id in Hnames |- * by done.
      by rewrite (filter_all _ _ Hnames).
  - intros (e & Hname & He)%list_elem_of_fmap.
    rewrite Forall_forall in Hnames. by apply (Hnames e He).
Qed.

(** X4: after a delete that the store accepts, the index page shows what it
    showed before without the entry of the deleted key, and nothing under
    that key. *)
Theorem delete_then_list b w k objs :
  k ≠ "" → bucket w = Some objs → faults w = [] →
  let w1 := (serve (post_delete b (Some k)) w).2 in
  ∃ before after,
    shown (res (serve (get_index b) w).2) = Some before
    ∧ shown (res (serve (get_index b) w1).2) = Some after
    ∧ after ≡ₚ filter (λ e, entry_name e ≠ k) before
    ∧ k ∉ entry_name <$> after.
Proof.
  intros Hk Hb Hf w1.
  assert (Hw1 : w1 = with_res (redirect "/")
                  (with_bucket (Some (delete k objs)) (issue (RemoveObject b k) w))).
  { unfold w1. by rewrite (delete_run b w k objs) by auto using scheduled_nil. }
  exists (listed (listing "" objs)), (listed (listing "" (delete k objs))).
  split_and!.
  - by rewrite (index_of_bucket b w objs) by auto using scheduled_nil.
  - rewrite (index_of_bucket b w1 (delete k objs)); [done|by rewrite Hw1|].
    apply scheduled_nil. rewrite Hw1. cbn. by rewrite Hf.
  - apply listed_after_delete.
  - apply listed_after_delete.
Qed.

(** X5: uploading a file under a key the bucket does not hold and then
    deleting that key leaves the bucket, and so the index page, as they
    were before the upload. *)
Theorem upload_then_delete_restores b w file objs :
  bucket w = Some objs → faults w = [] →
  objs !! key_of (now w) (originalname file) = None →
  let key := key_of (now w) (originalname file) in
  let w1 := (serve (post_upload b (Some file)) w).2 in
  let w2 := (serve (post_delete b (Some key)) w1).2 in
  res w2 = redirect "/"
  ∧ bucket w2 = bucket w
  ∧ shown (res (serve (get_index b) w2).2) = shown (res (serve (get_index b) w).2).
Proof.
  intros Hb Hf Hfree key w1 w2.
  assert (Hw1 : w1 = with_res (redirect "/")
                  (with_bucket (Some (<[key := stored file]> objs))
                     (issue (put_of b (now w) file) w))).
  { unfold w1. by rewrite (upload_stored b w file objs) by auto using scheduled_nil. }
  assert (Hw2 : w2 = with_res (redirect "/")
                  (with_bucket (Some objs)
                     (issue (RemoveObject b key) w1))).
  { unfold w2. rewrite (delete_run b w1 key (<[key := stored file]> objs)).
    - by rewrite delete_insert_id.
    - apply key_of_nonempty.
    - by rewrite Hw1.
    - apply scheduled_nil. rewrite Hw1. cbn. by rewrite Hf. }
  split_and!.
  - by rewrite Hw2.
  - by rewrite Hw2, Hb.
  - rewrite (index_of_bucket b w2 objs), (index_of_bucket b w objs);
      auto using scheduled_nil.
    + by rewrite Hw2.
    + apply scheduled_nil. rewrite Hw2, Hw1. cbn. by rewrite Hf.
Qed.

(** X6: once a delete has been accepted, a download of that key answers the
    error view with status 500, a preview answers 404, and a second delete
    is answered with the same redirect and changes nothing. *)
Theorem deleted_object_is_gone b w k objs :
  k ≠ "" → bucket w = Some objs → faults w = [] →
  let w1 := (serve (post_delete b (Some k)) w).2 in
  object_at k w1 = None
  ∧ res (serve (get_download b k) w1).2
    = respond 500 (Rendered (ErrorView "Failed to download file or file not found."))
  ∧ res (serve (get_preview b k) w1).2 = respond 404 (Text "Image not found.")
  ∧ res (serve (post_delete b (Some k)) w1).2 = redirect "/"
  ∧ bucket (serve (post_delete b (Some k)) w1).2 = bucket w1.
Proof.
  intros Hk Hb Hf w1.
  assert (Hw1 : w1 = with_res (redirect "/")
                  (with_bucket (Some (delete k objs)) (issue (RemoveObject b k) w))).
  { unfold w1. by rewrite (delete_run b w k objs) by auto using scheduled_nil. }
  assert (Hb1 : bucket w1 = Some (delete k objs)) by by rewrite Hw1.
  assert (Hs1 : scheduled w1 = None).
  { apply scheduled_nil. rewrite Hw1. cbn. by rewrite Hf. }
  assert (Hstat : (statObject b k w1).1 = Threw (S3Error "NotFound")).
  { handlers; run. destruct w1 as [t bk fs lg r]; unfold scheduled in *; cbn in *.
    subst bk. rewrite Hs1. cbn. by rewrite lookup_delete_eq. }
  split_and!.
  - unfold object_at. rewrite Hb1. cbn. apply lookup_delete_eq.
  - by rewrite (download_stat_failed b k w1 _ Hstat).
  - by rewrite (preview_stat_failed b k w1 _ Hstat).
  - by rewrite (delete_run b w1 k (delete k objs)).
  - rewrite (delete_run b w1 k (delete k objs)) by done. cbn.
    by rewrite Hb1, delete_delete_eq.
Qed.

(** ** What the handlers leave alone *)

Lemma emit_bucket {A S} (events : Readable A) (ls : listeners A S) (s : S) (w : world) :
  (∀ s a w', bucket (on_data ls s a w').2 = bucket w') →
  (∀ err w', bucket (on_error ls err w').2 = bucket w') →
  (∀ s w', bucket (on_end ls s w').2 = bucket w') →
  bucket (emit events ls s w).2 = bucket w.
Proof.
  intros Hdata Herror Hend. revert s w.
  induction events as [|[a|err|] events IH]; intros s w; cbn [emit]; [done| |done..].
  run. specialize (Hdata s a w).
  destruct (on_data ls s a w) as [[s'|e|c] w']; cbn in *; [|done..].
  by rewrite IH.
Qed.

Lemma pipe_bucket src w : bucket (pipe src w).2 = bucket w.
Proof. unfold pipe. by apply emit_bucket. Qed.

(** X9: the three reading handlers never change the bucket, whatever the
    store answers and however the streams end. *)
Theorem reads_leave_bucket b k w :
  bucket (serve (get_index b) w).2 = bucket w
  ∧ bucket (serve (get_download b k) w).2 = bucket w
  ∧ bucket (serve (get_preview b k) w).2 = bucket w.
Proof.
  split_and!.
  - unfold serve, get_index. run. rewrite listObjects_frame.
    destruct (listObjects b "" true w).1 as [stream|e|c]; cbn [fst snd]; [|done..].
    by rewrite emit_bucket.
  - unfold serve, get_download. run. rewrite statObject_frame.
    destruct (statObject b k w).1 as [st|e|c]; cbn [fst snd]; [|done..].
    unfold res_setHeader.
    destruct (prop "content-type" (stat_metaData st)) as [ct|]; [|done].
    destruct (valid_header_value ct); [|done].
    destruct (valid_header_value (attachment k)); [|done].
    run. rewrite getObject_frame.
    destruct (getObject b k (issue (StatObject b k) w)).1 as [src|e|c];
      cbn [fst snd]; [|done..].
    by rewrite pipe_bucket.
  - unfold serve, get_preview. run. rewrite statObject_frame.
    destruct (statObject b k w).1 as [st|e|c]; cbn [fst snd]; [|done..].
    destruct (prop "content-type" (stat_metaData st)) as [ct|]; [|done].
    destruct (String.prefix "image/" ct); [|done].
    run. rewrite getObject_frame.
    destruct (getObject b k (issue (StatObject b k) w)).1 as [src|e|c];
      cbn [fst snd]; [|done..].
    unfold res_setHeader.
    destruct (valid_header_value ct); [|done].
    run. by rewrite pipe_bucket.
Qed.

(** X10: an upload changes no key but its own and a delete no key but the
    one it names, whether the store accepts the call or not; neither makes
    the bucket appear or disappear. *)
Theorem writes_touch_one_key b w :
  (∀ file k, k ≠ key_of (now w) (originalname file) →
     object_at k (serve (post_upload b (Some file)) w).2 = object_at k w)
  ∧ (∀ objectName k, objectName ≠ Some k →
     object_at k (serve (post_delete b objectName) w).2 = object_at k w)
  ∧ (∀ file, is_Some (bucket (serve (post_upload b file) w).2) ↔ is_Some (bucket w))
  ∧ (∀ objectName,
       is_Some (bucket (serve (post_delete b objectName) w).2) ↔ is_Some (bucket w)).
Proof.
  unfold object_at. split_and!.
  - intros file k Hk. handlers; run.
    destruct w as [t [objs|] [|[[e|n e]|] fs] lg r]; cbn; try done.
    all: by rewrite lookup_insert_ne.
  - intros [[|c name]|] k Hk; try done.
    handlers; run.
    destruct w as [t [objs|] [|[[e|n e]|] fs] lg r]; cbn; try done.
    all: rewrite lookup_delete_ne; [done|congruence].
  - intros [file|]; [|done]. handlers; run.
    destruct w as [t [objs|] [|[[e|n e]|] fs] lg r]; cbn; try done.
    all: split; eauto.
  - intros [[|c name]|]; try done. handlers; run.
    destruct w as [t [objs|] [|[[e|n e]|] fs] lg r]; cbn; try done.
    all: split; eauto.
Qed.

(** X16: an upload whose key the bucket already holds is answered with the
    same redirect as any other; the object under that key is replaced by
    the new one and the bucket holds the same keys as before. *)
Theorem upload_replaces_existing_key b w file objs old :
  bucket w = Some objs → scheduled w = None →
  objs !! key_of (now w) (originalname file) = Some old →
  let w1 := (serve (post_upload b (Some file)) w).2 in
  res w1 = redirect "/"
  ∧ object_at (key_of (now w) (originalname file)) w1 = Some (stored file)
  ∧ (∀ k, is_Some (object_at k w1) ↔ is_Some (object_at k w)).
Proof.
  intros Hb Hs Hold w1. unfold w1, object_at.
  rewrite (upload_stored b w file objs) by done. cbn. rewrite Hb. cbn.
  split_and!; [done|apply lookup_insert_eq|].
  intros k. destruct (decide (k = key_of (now w) (originalname file))) as [->|Hk].
  - rewrite lookup_insert_eq, Hold. split; eauto.
  - by rewrite lookup_insert_ne.
Qed.

(** ** The index page and the bucket *)

Lemma listed_names_sublist (l : list (string * object)) :
  entry_name <$> listed (item_of <$> l) `sublist_of` l.*1.
Proof.
  induction l as [|[k o] l IH]; [done|].
  rewrite fmap_cons, listed_cons, fmap_app. cbn [fmap list_fmap fst].
  unfold listed at 1, keep. cbn. case_decide; cbn.
  - by apply sublist_skip.
  - by apply sublist_cons.
Qed.

(** X11: while the store answers, the index page shows exactly the objects
    of the bucket that have a non-empty key and at least one byte, each
    with its key and the length of its payload, and no key twice. *)
Theorem index_shows_stored_objects b w objs :
  bucket w = Some objs → scheduled w = None →
  ∃ page,
    res (serve (get_index b) w).2 = respond 200 (Rendered (IndexView page b))
    ∧ (∀ e, e ∈ page ↔
         ∃ o, objs !! entry_name e = Some o
              ∧ entry_size e = N.of_nat (length (body o))
              ∧ entry_name e ≠ "" ∧ body o ≠ [])
    ∧ NoDup (entry_name <$> page).
Proof.
  intros Hb Hs. exists (listed (listing "" objs)). split_and!.
  - by rewrite (index_of_bucket b w objs).
  - intros e. rewrite elem_of_listed, listing_all. split.
    + intros (obj & ([k o] & -> & Hko)%list_elem_of_fmap & Hname & Hsize & Hn & Hz).
      apply elem_of_map_to_list in Hko. cbn in Hname, Hsize. simplify_eq.
      exists o. split_and!; try done.
      intros Hbody. apply Hz. by rewrite <-Hsize, Hbody.
    + intros (o & Hko & Hsize & Hn & Hbody).
      exists (item_of (entry_name e, o)). split_and!; try done.
      * apply list_elem_of_fmap. exists (entry_name e, o). split; [done|].
        by apply elem_of_map_to_list.
      * rewrite Hsize. destruct (body o); [done|]. cbn [length]. lia.
  - rewrite listing_all. eapply sublist_NoDup; [|apply listed_names_sublist].
    apply NoDup_fst_map_to_list.
Qed.

(** ** Streams that break *)

Lemma failure_not_ended {A} (src : Readable A) err :
  failure src = Some err → ended src = false.
Proof. induction src as [|[a|e|] src IH]; cbn; auto; done. Qed.

Lemma preview_run b k w st contentType src :
  (statObject b k w).1 = Ret st →
  prop "content-type" (stat_metaData st) = Some contentType →
  String.prefix "image/" contentType = true →
  valid_header_value contentType = true →
  (getObject b k (issue (StatObject b k) w)).1 = Ret src →
  serve (get_preview b k) w
  = (from_option Threw (Ret tt) (failure src),
     with_res {| statusCode := 200;
                 headers := {[ "Content-Type" := contentType ]};
                 payload := piped (emitted src) (ended src) |}
       (issue (GetObject b k) (issue (StatObject b k) w))).
Proof.
  intros Hstat Hct Himg Hvalid Hget. unfold serve, get_preview. run.
  rewrite statObject_frame, Hstat; cbn [fst snd]; rewrite Hct, Himg.
  rewrite getObject_frame, Hget; cbn [fst snd].
  unfold res_setHeader. rewrite Hvalid. run.
  by rewrite pipe_fresh.
Qed.

(** X12: when the object stream of a download or of a preview emits 'error'
    after some chunks, the error is not caught: the answer keeps status
    200, holds exactly the chunks emitted before the error, and is never
    ended; no error view is sent. *)
Theorem stream_error_truncates b k w st contentType src err :
  (statObject b k w).1 = Ret st →
  prop "content-type" (stat_metaData st) = Some contentType →
  valid_header_value contentType = true →
  (getObject b k (issue (StatObject b k) w)).1 = Ret src →
  failure src = Some err →
  (valid_header_value (attachment k) = true →
     (serve (get_download b k) w).1 = Threw err
     ∧ statusCode (res (serve (get_download b k) w).2) = 200%Z
     ∧ written (res (serve (get_download b k) w).2) = concat (emitted src)
     ∧ finished (res (serve (get_download b k) w).2) = false)
  ∧ (String.prefix "image/" contentType = true →
     (serve (get_preview b k) w).1 = Threw err
     ∧ statusCode (res (serve (get_preview b k) w).2) = 200%Z
     ∧ written (res (serve (get_preview b k) w).2) = concat (emitted src)
     ∧ finished (res (serve (get_preview b k) w).2) = false).
Proof.
  intros Hstat Hct Hvalid Hget Hfail.
  pose proof (failure_not_ended src err Hfail) as Hopen.
  split.
  - intros Hvalid'. rewrite (download_run b k w st contentType src) by done.
    rewrite Hfail, Hopen. cbn [fst snd from_option]. rewrite res_with_res.
    split_and!; try done; by eapply written_piped.
  - intros Himg. rewrite (preview_run b k w st contentType src) by done.
    rewrite Hfail, Hopen. cbn [fst snd from_option]. rewrite res_with_res.
    split_and!; try done; by eapply written_piped.
Qed.

(** ** Upload, then preview *)

Lemma stat_stored b k w objs o :
  bucket w = Some objs → scheduled w = None → objs !! k = Some o →
  (statObject b k w).1
  = Ret {| stat_size := N.of_nat (length (body o)); stat_metaData := metaData o |}.
Proof.
  intros Hb Hs Hk. handlers; run.
  destruct w as [t bk fs lg r]; unfold scheduled in *; cbn in *; subst bk.
  rewrite Hs. cbn. by rewrite Hk.
Qed.

Lemma get_stored b k w objs o :
  bucket w = Some objs → scheduled w = None → objs !! k = Some o →
  (getObject b k w).1 = Ret (chunks (body o) ++ [EvEnd]).
Proof.
  intros Hb Hs Hk. handlers; run.
  destruct w as [t bk fs lg r]; unfold scheduled in *; cbn in *; subst bk.
  rewrite Hs. cbn. by rewrite Hk.
Qed.

(** X13: while the store answers, the preview of a file just uploaded
    streams its bytes with the declared MIME type as Content-Type, and no
    disposition, when that type begins with image/, and answers 400
    otherwise. *)
Theorem upload_then_preview b w file objs :
  bucket w = Some objs → faults w = [] →
  let key := key_of (now w) (originalname file) in
  let w1 := (serve (post_upload b (Some file)) w).2 in
  (String.prefix "image/" (mimetype file) = true →
   valid_header_value (mimetype file) = true →
     (serve (get_preview b key) w1).1 = Ret tt
     ∧ statusCode (res (serve (get_preview b key) w1).2) = 200%Z
     ∧ headers (res (serve (get_preview b key) w1).2) = {[ "Content-Type" := mimetype file ]}
     ∧ written (res (serve (get_preview b key) w1).2) = buffer file
     ∧ finished (res (serve (get_preview b key) w1).2) = true)
  ∧ (String.prefix "image/" (mimetype file) = false →
     res (serve (get_preview b key) w1).2 = respond 400 (Text "File is not an image.")).
Proof.
  intros Hb Hf key w1.
  assert (Hw1 : w1 = with_res (redirect "/")
                  (with_bucket (Some (<[key := stored file]> objs))
                     (issue (put_of b (now w) file) w))).
  { unfold w1. by rewrite (upload_stored b w file objs) by auto using scheduled_nil. }
  assert (Hb1 : bucket w1 = Some (<[key := stored file]> objs)) by by rewrite Hw1.
  assert (Hf1 : faults w1 = []) by (rewrite Hw1; cbn; by rewrite Hf).
  assert (Hstat := stat_stored b key w1 _ (stored file) Hb1 (scheduled_nil _ Hf1)
                     (lookup_insert_eq _ _ _)).
  split.
  - intros Himg Hvalid.
    destruct (emitted_chunks (buffer file)) as (Hbytes & Hend & Hfail).
    rewrite (preview_run b key w1 _ (mimetype file) (chunks (buffer file) ++ [EvEnd]) Hstat);
      try done.
    + rewrite Hfail. cbn [fst snd from_option]. rewrite res_with_res.
      match goal with
      | |- context [written ?r] =>
          destruct (written_piped _ _ r eq_refl) as [Hw Hfin]
      end.
      by rewrite Hw, Hfin, Hbytes, Hend.
    + apply (get_stored b key _ (<[key := stored file]> objs) (stored file)).
      * done.
      * apply scheduled_nil. cbn. by rewrite Hf1.
      * apply lookup_insert_eq.
  - intros Htext. unfold serve, get_preview. run.
    rewrite statObject_frame, Hstat. cbn. by rewrite Htext.
Qed.

(** ** When two uploads meet *)

(** X14: a key is made by one millisecond and one file name only.  So two
    uploads that differ in their millisecond or in their file name get
    different keys, and while the store answers the bucket holds the object
    of each under its key afterwards. *)
Theorem uploads_collide_only_on_same_time_and_name b w f1 f2 t1 t2 objs :
  bucket w = Some objs → faults w = [] →
  t1 ≠ t2 ∨ originalname f1 ≠ originalname f2 →
  let k1 := key_of t1 (originalname f1) in
  let k2 := key_of t2 (originalname f2) in
  let w1 := (serve (post_upload b (Some f1)) (at_time t1 w)).2 in
  let w2 := (serve (post_upload b (Some f2)) (at_time t2 w1)).2 in
  (∀ t t' name name', key_of t name = key_of t' name' → t = t' ∧ name = name')
  ∧ k1 ≠ k2
  ∧ object_at k1 w2 = Some (stored f1)
  ∧ object_at k2 w2 = Some (stored f2).
Proof.
  intros Hb Hf Hdiff k1 k2 w1 w2.
  assert (Hk : k1 ≠ k2).
  { intros [? ?]%key_of_pair_inj. by destruct Hdiff. }
  assert (Hw1 : w1 = with_res (redirect "/")
                  (with_bucket (Some (<[k1 := stored f1]> objs))
                     (issue (put_of b t1 f1) (at_time t1 w)))).
  { unfold w1. rewrite (upload_stored b _ f1 objs); [done..|].
    apply scheduled_nil. by cbn. }
  assert (Hw2 : w2 = with_res (redirect "/")
                  (with_bucket (Some (<[k2 := stored f2]> (<[k1 := stored f1]> objs)))
                     (issue (put_of b t2 f2) (at_time t2 w1)))).
  { unfold w2. rewrite (upload_stored b _ f2 (<[k1 := stored f1]> objs)); [done| |].
    - by rewrite Hw1.
    - apply scheduled_nil. rewrite Hw1. cbn. by rewrite Hf. }
  unfold object_at. rewrite Hw2. cbn.
  split_and!; [by intros ???? ?%key_of_pair_inj|done| |apply lookup_insert_eq].
  rewrite lookup_insert_ne by done. apply lookup_insert_eq.
Qed.

(** ** After startup *)

Lemma main_bucket b p w :
  (main b p w).1 = Ret tt →
  ∃ objs, bucket (main b p w).2 = Some objs
          ∧ (bucket w = None → objs = ∅)
          ∧ (∀ old, bucket w = Some old → objs = old).
Proof.
  handlers; run.
  destruct w as [t [objs|] fs lg r].
  - destruct fs as [|[[e|n e]|] fs]; cbn; try done.
    all: intros _; exists objs; split_and!; [done|done|by intros ? [= ->]].
  - destruct fs as [|[[e|n e]|] [|[[e'|n' e']|] fs]]; cbn; try done.
    all: intros _; by exists ∅.
Qed.

(** X15: once the process listens, the bucket is there, and while the store
    answers the index page is rendered with status 200: empty when startup
    has just created the bucket, and showing the objects of a bucket that
    startup found. *)
Theorem startup_then_listing b p w :
  (main b p w).1 = Ret tt → faults (main b p w).2 = [] →
  (∃ page, res (serve (get_index b) (main b p w).2).2
           = respond 200 (Rendered (IndexView page b)))
  ∧ (bucket w = None →
     res (serve (get_index b) (main b p w).2).2 = respond 200 (Rendered (IndexView [] b)))
  ∧ (∀ old, bucket w = Some old →
     res (serve (get_index b) (main b p w).2).2
     = respond 200 (Rendered (IndexView (listed (listing "" old)) b))).
Proof.
  intros Hmain Hf.
  destruct (main_bucket b p w Hmain) as (objs & Hb & Hnew & Hold).
  rewrite (index_of_bucket b _ objs Hb (scheduled_nil _ Hf)). cbn.
  split_and!.
  - by eexists.
  - intros ->%Hnew. by rewrite listing_all, map_to_list_empty.
  - by intros old ->%Hold.
Qed.

(** ** When the index page is sent *)

Lemma emit_index_run b events acc w :
  emit events (index_listeners b) acc w
  = (from_option Threw (Ret tt) (failure events),
     if ended events
     then with_res {| statusCode := statusCode (res w); headers := headers (res w);
                      payload := Rendered (IndexView (acc ++ listed (emitted events)) b) |} w
     else w).
Proof.
  revert acc. induction events as [|[obj|err|] events IH]; intros acc;
    cbn [emit emitted ended failure from_option]; [done| |done|].
  - cbn [on_data index_listeners]. run. rewrite IH, onData_keep.
    by rewrite (listed_cons obj (emitted events)), app_assoc.
  - cbn [on_end index_listeners]. unfold res_render, deliver. run.
    by rewrite app_nil_r.
Qed.

(** X17: the index handler answers at the 'end' event and only there.  When
    the listObjects call itself throws, the catch answers the error view
    with status 500.  When it returns a stream, the page is rendered with
    the truthy items emitted before 'end'; a stream that emits 'error' or
    stays open leaves the response untouched, and the error, if any,
    uncaught. *)
Theorem index_answers_at_end b w :
  (∀ err, (listObjects b "" true w).1 = Threw err →
     (serve (get_index b) w).1 = Ret tt
     ∧ res (serve (get_index b) w).2
       = respond 500 (Rendered (ErrorView "Failed to list objects.")))
  ∧ (∀ src, (listObjects b "" true w).1 = Ret src →
       (serve (get_index b) w).1 = from_option Threw (Ret tt) (failure src)
       ∧ res (serve (get_index b) w).2
         = if ended src
           then respond 200 (Rendered (IndexView (listed (emitted src)) b))
           else fresh).
Proof.
  split.
  - intros err Hcall. by rewrite (index_listing_rejected b w err Hcall).
  - intros src Hcall. unfold serve, get_index. run.
    rewrite listObjects_frame, Hcall. cbn [fst snd].
    rewrite emit_index_run. cbn [fst snd]. by destruct (ended src).
Qed.

(** * Concrete runs *)

(** C7 needs no premise; the others are applied here to sample inputs. *)

Lemma delete_responses_witness :
  serve (post_delete "gallery" (Some "ghost.png")) gallery
  = (Ret tt, with_res (redirect "/") (issue (RemoveObject "gallery" "ghost.png") gallery)).
Proof.
  destruct (delete_responses "gallery" gallery) as (_ & _ & _ & Habsent).
  apply (Habsent "ghost.png" ∅); [done|reflexivity|reflexivity|apply lookup_empty].
Defined.

Lemma index_lists_truthy_items_witness :
  let w := with_bucket (Some {[ "cat.png" := cat; "void" := stored blank ]}) gallery in
  shown (res (serve (get_index "gallery") w).2)
  = Some [{| entry_name := "cat.png"; entry_size := 4 |}].
Proof.
  intros w.
  destruct (index_lists_truthy_items "gallery"
              [{| item_name := Some "cat.png"; item_size := 4 |};
               {| item_name := Some "void"; item_size := 0 |}]) as (_ & Hrun & _).
  rewrite (Hrun w); [reflexivity|]. vm_compute. reflexivity.
Defined.

Lemma index_stream_error_escapes_witness :
  serve (get_index "gallery") (with_faults [Some (Break 1 reset)] album)
  = (Threw reset,
     with_res fresh (issue (ListObjects "gallery" "" true)
                       (with_faults [Some (Break 1 reset)] album))).
Proof.
  apply (index_stream_error_escapes "gallery" _
           [{| item_name := Some "cat.png"; item_size := 4 |}] reset []).
  vm_compute. reflexivity.
Defined.

Lemma preview_without_content_type_witness :
  serve (get_preview "gallery" "bare.bin") album
  = (Ret tt, with_res (respond 404 (Text "Image not found."))
               (issue (StatObject "gallery" "bare.bin") album)).
Proof.
  apply (preview_without_content_type "gallery" "bare.bin" album
           {| stat_size := 3; stat_metaData := [] |});
    vm_compute; reflexivity.
Defined.

Lemma preview_responses_witness :
  serve (get_preview "gallery" "cat.png") album
  = (Ret tt,
     with_res {| statusCode := 200; headers := {[ "Content-Type" := "image/png" ]};
                 payload := Piped [list_byte_of_string "meow"] true |}
       (issue (GetObject "gallery" "cat.png") (issue (StatObject "gallery" "cat.png") album)))
  ∧ serve (get_preview "gallery" "notes.txt") album
    = (Ret tt, with_res (respond 400 (Text "File is not an image."))
                 (issue (StatObject "gallery" "notes.txt") album))
  ∧ serve (get_preview "gallery" "ghost.png") album
    = (Ret tt, with_res (respond 404 (Text "Image not found."))
                 (issue (StatObject "gallery" "ghost.png") album)).
Proof.
  split_and!.
  - destruct (preview_responses "gallery" "cat.png" album) as (_ & _ & _ & Hstream).
    apply (Hstream {| stat_size := 4; stat_metaData := [("content-type", "image/png")] |}
             "image/png" [EvData (list_byte_of_string "meow"); EvEnd]);
      vm_compute; reflexivity.
  - destruct (preview_responses "gallery" "notes.txt" album) as (_ & Htext & _).
    apply (Htext {| stat_size := 5; stat_metaData := [("content-type", "text/plain")] |}
             "text/plain"); vm_compute; reflexivity.
  - destruct (preview_responses "gallery" "ghost.png" album) as (Hmissing & _).
    apply (Hmissing (S3Error "NotFound")). vm_compute. reflexivity.
Defined.

Lemma download_streams_witness :
  serve (get_download "gallery" "cat.png") album
  = (Ret tt,
     with_res {| statusCode := 200;
                 headers := {[ "Content-Disposition" := attachment "cat.png";
                               "Content-Type" := "image/png" ]};
                 payload := Piped [list_byte_of_string "meow"] true |}
       (issue (GetObject "gallery" "cat.png") (issue (StatObject "gallery" "cat.png") album)))
  ∧ written (res (serve (get_download "gallery" "cat.png") album).2)
    = concat [list_byte_of_string "meow"].
Proof.
  destruct (download_streams "gallery" "cat.png" album
              {| stat_size := 4; stat_metaData := [("content-type", "image/png")] |}
              "image/png" [EvData (list_byte_of_string "meow"); EvEnd])
    as (Hrun & Hbytes & _); [vm_compute; reflexivity..|].
  split; [exact Hrun|exact Hbytes].
Defined.

Lemma startup_sequence_witness :
  (main "gallery" None (with_bucket None gallery)).1 = Ret tt
  ∧ log (main "gallery" None (with_bucket None gallery)).2
    = [BucketExists "gallery"; MakeBucket "gallery"; Listen (inr 3000%Z)]
  ∧ main "gallery" None (with_faults [Some (Reject reset)] gallery)
    = (Exited 1, issue (BucketExists "gallery") (with_faults [Some (Reject reset)] gallery)).
Proof.
  split_and!.
  - reflexivity.
  - destruct (startup_sequence "gallery" None (with_bucket None gallery))
      as (Hlisten & _).
    destruct (Hlisten eq_refl) as [_ [Hlog|Hlog]]; [|exact Hlog].
    vm_compute in Hlog. discriminate Hlog.
  - destruct (startup_sequence "gallery" None (with_faults [Some (Reject reset)] gallery))
      as (_ & _ & _ & Hcheck & _).
    apply (Hcheck reset). reflexivity.
Defined.

Lemma upload_then_list_then_download_witness :
  let key := "1700000000000-cat.png" in
  let w1 := (serve (post_upload "gallery" (Some png)) gallery).2 in
  let w2 := (serve (get_index "gallery") w1).2 in
  let w3 := (serve (get_download "gallery" key) w2).2 in
  shown (res w2) = Some [{| entry_name := key; entry_size := 4 |}]
  ∧ headers (res w3) !! "Content-Type" = Some "image/png"
  ∧ written (res w3) = list_byte_of_string "meow".
Proof.
  destruct (upload_then_list_then_download "gallery" gallery png ∅)
    as (_ & _ & _ & Htype & Hbytes & _);
    [reflexivity|reflexivity|apply lookup_empty|done|vm_compute; reflexivity..|].
  split_and!; [vm_compute; reflexivity|exact Htype|exact Hbytes].
Defined.

Lemma uploads_of_one_name_witness :
  let w1 := (serve (post_upload "gallery" (Some png)) (at_time 1 gallery)).2 in
  let w2 := (serve (post_upload "gallery" (Some png')) (at_time 2 w1)).2 in
  key_of 1 "cat.png" ≠ key_of 2 "cat.png"
  ∧ written (res (serve (get_download "gallery" (key_of 1 "cat.png")) w2).2)
    = list_byte_of_string "meow"
  ∧ written (res (serve (get_download "gallery" (key_of 2 "cat.png")) w2).2)
    = list_byte_of_string "purr".
Proof.
  destruct (uploads_of_one_name "gallery" gallery png png' 1 2 ∅)
    as (_ & Hkeys & _ & Hfirst & Hsecond); [reflexivity|reflexivity|reflexivity|done|].
  split_and!.
  - exact Hkeys.
  - apply Hfirst; vm_compute; reflexivity.
  - apply Hsecond; vm_compute; reflexivity.
Defined.

(** * Where the specification and the code part *)

(** C1 as stated fails in four ways.  An upload of an empty file succeeds
    and the index page does not show it.  An upload in the millisecond of
    an earlier one of the same name and size leaves the index page as it
    was.  An upload that is listed cannot be downloaded when the store
    fails the read, or when its name holds a line feed: the answer is 500. *)
Lemma upload_not_always_listed_or_returned :
  (let w1 := (serve (post_upload "gallery" (Some blank)) gallery).2 in
   statusCode (res w1) = 302%Z
   ∧ bucket w1 ≫= (.!! "1700000000000-blank.txt") = Some (stored blank)
   ∧ shown (res (serve (get_index "gallery") gallery).2) = Some []
   ∧ shown (res (serve (get_index "gallery") w1).2) = Some [])
  ∧ (let w1 := (serve (post_upload "gallery" (Some png)) gallery).2 in
     let w2 := (serve (post_upload "gallery" (Some png')) w1).2 in
     statusCode (res w2) = 302%Z
     ∧ shown (res (serve (get_index "gallery") w1).2)
       = Some [{| entry_name := "1700000000000-cat.png"; entry_size := 4 |}]
     ∧ shown (res (serve (get_index "gallery") w2).2)
       = Some [{| entry_name := "1700000000000-cat.png"; entry_size := 4 |}])
  ∧ (let w := with_faults [None; None; None; Some (Reject reset)] gallery in
     let w1 := (serve (post_upload "gallery" (Some png)) w).2 in
     let w2 := (serve (get_index "gallery") w1).2 in
     let w3 := (serve (get_download "gallery" "1700000000000-cat.png") w2).2 in
     shown (res w2) = Some [{| entry_name := "1700000000000-cat.png"; entry_size := 4 |}]
     ∧ statusCode (res w3) = 500%Z ∧ written (res w3) = [])
  ∧ (let w1 := (serve (post_upload "gallery" (Some odd)) gallery).2 in
     let w2 := (serve (get_index "gallery") w1).2 in
     let w3 := (serve (get_download "gallery" (key_of (now gallery) two_lines)) w2).2 in
     shown (res w2)
     = Some [{| entry_name := key_of (now gallery) two_lines; entry_size := 4 |}]
     ∧ statusCode (res w3) = 500%Z ∧ written (res w3) = []).
Proof. vm_compute. by split_and!. Qed.

(** C3 as stated fails when two uploads of one name fall in the same
    millisecond: both get the same key and the second replaces the object
    of the first. *)
Lemma same_millisecond_upload_overwrites :
  let w1 := (serve (post_upload "gallery" (Some png)) gallery).2 in
  let w2 := (serve (post_upload "gallery" (Some png')) w1).2 in
  log w2 = [put_of "gallery" (now gallery) png; put_of "gallery" (now gallery) png']
  ∧ key_of (now gallery) (originalname png) = key_of (now gallery) (originalname png')
  ∧ bucket w1 ≫= (.!! "1700000000000-cat.png") = Some (stored png)
  ∧ bucket w2 ≫= (.!! "1700000000000-cat.png") = Some (stored png')
  ∧ body (stored png) ≠ body (stored png').
Proof. vm_compute. by split_and!. Qed.

(** C4 as stated fails for an image whose read the store refuses: the stat
    succeeds, the content type begins with image/, and the answer is 404,
    not the body.  And an object without a content type, which then does
    not begin with image/, is answered 404, not 400. *)
Lemma preview_of_image_not_always_streamed :
  (let w := with_faults [None; Some (Reject reset)] album in
   (statObject "gallery" "cat.png" w).1
   = Ret {| stat_size := 4; stat_metaData := [("content-type", "image/png")] |}
   ∧ String.prefix "image/" "image/png" = true
   ∧ (serve (get_preview "gallery" "cat.png") w).1 = Ret tt
   ∧ statusCode (res (serve (get_preview "gallery" "cat.png") w).2) = 404%Z
   ∧ payload (res (serve (get_preview "gallery" "cat.png") w).2)
     = Text "Image not found.")
  ∧ ((statObject "gallery" "bare.bin" album).1
     = Ret {| stat_size := 3; stat_metaData := [] |}
     ∧ statusCode (res (serve (get_preview "gallery" "bare.bin") album).2) = 404%Z
     ∧ payload (res (serve (get_preview "gallery" "bare.bin") album).2)
       = Text "Image not found.").
Proof. vm_compute. by split_and!. Qed.

(** C6 as stated fails after a successful stat in three ways, each answered
    500 with the error view and no byte of the object: the store refuses
    the read; the object has no content type; the name holds a line feed. *)
Lemma download_not_always_streamed :
  (let w := with_faults [None; Some (Reject reset)] album in
   (statObject "gallery" "cat.png" w).1
   = Ret {| stat_size := 4; stat_metaData := [("content-type", "image/png")] |}
   ∧ statusCode (res (serve (get_download "gallery" "cat.png") w).2) = 500%Z
   ∧ payload (res (serve (get_download "gallery" "cat.png") w).2)
     = Rendered (ErrorView "Failed to download file or file not found."))
  ∧ ((statObject "gallery" "bare.bin" album).1
     = Ret {| stat_size := 3; stat_metaData := [] |}
     ∧ statusCode (res (serve (get_download "gallery" "bare.bin") album).2) = 500%Z
     ∧ payload (res (serve (get_download "gallery" "bare.bin") album).2)
       = Rendered (ErrorView "Failed to download file or file not found."))
  ∧ ((statObject "gallery" two_lines album).1
     = Ret {| stat_size := 4; stat_metaData := [("content-type", "image/png")] |}
     ∧ statusCode (res (serve (get_download "gallery" two_lines) album).2) = 500%Z
     ∧ payload (res (serve (get_download "gallery" two_lines) album).2)
       = Rendered (ErrorView "Failed to download file or file not found.")).
Proof. vm_compute. by split_and!. Qed.

(** * Concrete runs of the further properties *)

Lemma upload_store_failure_witness :
  bucket (serve (post_upload "gallery" (Some png))
            (with_faults [Some (Reject reset)] gallery)).2
  = bucket (with_faults [Some (Reject reset)] gallery).
Proof.
  destruct (upload_store_failure "gallery" (with_faults [Some (Reject reset)] gallery)
              png reset) as [_ Hbucket]; [vm_compute; reflexivity|exact Hbucket].
Defined.

Lemma delete_store_failure_witness :
  serve (post_delete "gallery" (Some "cat.png")) nowhere
  = (Ret tt,
     with_res (respond 500 (Rendered (ErrorView "Failed to delete object.")))
       (issue (RemoveObject "gallery" "cat.png") nowhere)).
Proof.
  destruct (delete_store_failure "gallery" nowhere "cat.png" (S3Error "NoSuchBucket"))
    as [Hrun _]; [done|vm_compute; reflexivity|exact Hrun].
Defined.

Lemma delete_then_list_witness :
  let w1 := (serve (post_delete "gallery" (Some "cat.png")) album).2 in
  ∃ before after,
    shown (res (serve (get_index "gallery") album).2) = Some before
    ∧ shown (res (serve (get_index "gallery") w1).2) = Some after
    ∧ after ≡ₚ filter (λ e, entry_name e ≠ "cat.png") before
    ∧ "cat.png" ∉ entry_name <$> after.
Proof.
  apply (delete_then_list "gallery" album "cat.png"
           {[ "cat.png" := cat; "notes.txt" := notes; "bare.bin" := bare;
              two_lines := cat ]}); [done|reflexivity|reflexivity].
Defined.

Lemma upload_then_delete_restores_witness :
  let w1 := (serve (post_upload "gallery" (Some png)) gallery).2 in
  let w2 := (serve (post_delete "gallery" (Some (key_of (now gallery) "cat.png"))) w1).2 in
  bucket w2 = bucket gallery.
Proof.
  destruct (upload_then_delete_restores "gallery" gallery png ∅)
    as (_ & Hbucket & _); [reflexivity|reflexivity|apply lookup_empty|exact Hbucket].
Defined.

Lemma deleted_object_is_gone_witness :
  let w1 := (serve (post_delete "gallery" (Some "cat.png")) album).2 in
  res (serve (get_download "gallery" "cat.png") w1).2
  = respond 500 (Rendered (ErrorView "Failed to download file or file not found."))
  ∧ res (serve (get_preview "gallery" "cat.png") w1).2
    = respond 404 (Text "Image not found.").
Proof.
  destruct (deleted_object_is_gone "gallery" album "cat.png"
              {[ "cat.png" := cat; "notes.txt" := notes; "bare.bin" := bare;
                 two_lines := cat ]})
    as (_ & Hdownload & Hpreview & _); [done|reflexivity|reflexivity|].
  split; [exact Hdownload|exact Hpreview].
Defined.

Lemma download_stat_failure_witness :
  res (serve (get_download "gallery" "ghost.png") album).2
  = respond 500 (Rendered (ErrorView "Failed to download file or file not found."))
  ∧ log (serve (get_download "gallery" "ghost.png") album).2
    = log album ++ [StatObject "gallery" "ghost.png"].
Proof.
  destruct (download_stat_failure "gallery" "ghost.png" album (S3Error "NotFound"))
    as (Hres & Hlog & _); [vm_compute; reflexivity|].
  split; [exact Hres|exact Hlog].
Defined.

Lemma download_read_failure_keeps_disposition_witness :
  let w := with_faults [None; Some (Reject reset)] album in
  statusCode (res (serve (get_download "gallery" "cat.png") w).2) = 500%Z
  ∧ headers (res (serve (get_download "gallery" "cat.png") w).2) !! "Content-Disposition"
    = Some (attachment "cat.png").
Proof.
  destruct (download_read_failure_keeps_disposition "gallery" "cat.png"
              (with_faults [None; Some (Reject reset)] album)
              {| stat_size := 4; stat_metaData := [("content-type", "image/png")] |}
              "image/png" reset)
    as (_ & Hstatus & _ & Hheader & _); [vm_compute; reflexivity..|].
  split; [exact Hstatus|exact Hheader].
Defined.

Lemma writes_touch_one_key_witness :
  object_at "notes.txt" (serve (post_delete "gallery" (Some "cat.png")) album).2
  = object_at "notes.txt" album
  ∧ object_at "notes.txt" (serve (post_upload "gallery" (Some png)) album).2
    = object_at "notes.txt" album.
Proof.
  destruct (writes_touch_one_key "gallery" album) as (Hupload & Hdelete & _).
  split.
  - apply (Hdelete (Some "cat.png") "notes.txt"). discriminate.
  - apply (Hupload png "notes.txt"). vm_compute. discriminate.
Defined.

Lemma upload_replaces_existing_key_witness :
  let w1 := (serve (post_upload "gallery" (Some png')) taken).2 in
  res w1 = redirect "/"
  ∧ object_at (key_of (now taken) (originalname png')) w1 = Some (stored png').
Proof.
  destruct (upload_replaces_existing_key "gallery" taken png'
              {[ "1700000000000-cat.png" := cat ]} cat)
    as (Hres & Hnew & _); [reflexivity|reflexivity|vm_compute; reflexivity|].
  split; [exact Hres|exact Hnew].
Defined.

Lemma index_shows_stored_objects_witness :
  ∃ page,
    res (serve (get_index "gallery") album).2
    = respond 200 (Rendered (IndexView page "gallery"))
    ∧ NoDup (entry_name <$> page).
Proof.
  destruct (index_shows_stored_objects "gallery" album
              {[ "cat.png" := cat; "notes.txt" := notes; "bare.bin" := bare;
                 two_lines := cat ]})
    as (page & Hres & _ & Hnodup); [reflexivity|reflexivity|].
  exists page. split; [exact Hres|exact Hnodup].
Defined.

Lemma stream_error_truncates_witness :
  let w := with_faults [None; Some (Break 2 reset)] album in
  (serve (get_download "gallery" "cat.png") w).1 = Threw reset
  ∧ written (res (serve (get_download "gallery" "cat.png") w).2)
    = concat (emitted [EvData (list_byte_of_string "me"); EvError reset])
  ∧ finished (res (serve (get_download "gallery" "cat.png") w).2) = false.
Proof.
  destruct (stream_error_truncates "gallery" "cat.png"
              (with_faults [None; Some (Break 2 reset)] album)
              {| stat_size := 4; stat_metaData := [("content-type", "image/png")] |}
              "image/png" [EvData (list_byte_of_string "me"); EvError reset] reset)
    as [Hdownload _]; [vm_compute; reflexivity..|].
  destruct Hdownload as (Hthrown & _ & Hbytes & Hopen); [vm_compute; reflexivity|].
  split_and!; [exact Hthrown|exact Hbytes|exact Hopen].
Defined.

Lemma upload_then_preview_witness :
  let w1 := (serve (post_upload "gallery" (Some png)) gallery).2 in
  written (res (serve (get_preview "gallery" (key_of (now gallery) (originalname png))) w1).2)
  = buffer png
  ∧ res (serve (get_preview "gallery" (key_of (now gallery) (originalname blank)))
           (serve (post_upload "gallery" (Some blank)) gallery).2).2
    = respond 400 (Text "File is not an image.").
Proof.
  split.
  - destruct (upload_then_preview "gallery" gallery png ∅) as [Himage _];
      [reflexivity|reflexivity|].
    destruct Himage as (_ & _ & _ & Hbytes & _); [vm_compute; reflexivity..|].
    exact Hbytes.
  - destruct (upload_then_preview "gallery" gallery blank ∅) as [_ Htext];
      [reflexivity|reflexivity|].
    apply Htext. vm_compute. reflexivity.
Defined.

Lemma uploads_collide_only_on_same_time_and_name_witness :
  let w1 := (serve (post_upload "gallery" (Some png)) (at_time 5 gallery)).2 in
  let w2 := (serve (post_upload "gallery" (Some blank)) (at_time 5 w1)).2 in
  key_of 5 (originalname png) ≠ key_of 5 (originalname blank)
  ∧ object_at (key_of 5 (originalname png)) w2 = Some (stored png)
  ∧ object_at (key_of 5 (originalname blank)) w2 = Some (stored blank).
Proof.
  destruct (uploads_collide_only_on_same_time_and_name "gallery" gallery png blank 5 5 ∅)
    as (_ & Hkeys & Hfirst & Hsecond); [reflexivity|reflexivity|right; discriminate|].
  split_and!; [exact Hkeys|exact Hfirst|exact Hsecond].
Defined.

Lemma startup_then_listing_witness :
  res (serve (get_index "gallery") (main "gallery" None nowhere).2).2
  = respond 200 (Rendered (IndexView [] "gallery")).
Proof.
  destruct (startup_then_listing "gallery" None nowhere) as (_ & Hempty & _);
    [reflexivity|reflexivity|].
  apply Hempty. reflexivity.
Defined.

Lemma index_answers_at_end_witness :
  res (serve (get_index "gallery") (with_faults [Some (Reject reset)] album)).2
  = respond 500 (Rendered (ErrorView "Failed to list objects."))
  ∧ res (serve (get_index "gallery") (with_faults [Some (Break 1 reset)] album)).2
    = fresh.
Proof.
  split.
  - destruct (index_answers_at_end "gallery" (with_faults [Some (Reject reset)] album))
      as [Hcall _].
    apply (Hcall reset). vm_compute. reflexivity.
  - destruct (index_answers_at_end "gallery" (with_faults [Some (Break 1 reset)] album))
      as [_ Hstream].
    destruct (Hstream [EvData {| item_name := Some "cat.png"; item_size := 4 |};
                       EvError reset]) as [_ Hres]; [vm_compute; reflexivity|].
    exact Hres.
Defined.
